(** * HumanAlignment: odd-one-out triplet scoring and RSA evaluation loop

    A shallow embedding of the numerical core of the repository
    ([main_eval.py], [main_layer_eval.py], [main_model_sim_eval.py]) and the
    properties its specification states about it.

    Conventions of the embedding
    - torch / numpy floating-point scalars are idealised as real numbers
      ([R]); no NaN, no rounding.  Integers of the triplet array are [Z].
    - Python exceptions are an explicit error monad ([Py.result]).
    - The fraction computed by [accuracy] is an exact rational ([Q]). *)

From Stdlib Require Import Reals Psatz ZArith QArith Qround Qabs List String Ascii Permutation.
From stdpp Require Import base option gmap strings.
Import ListNotations.

(* ===================================================================== *)
(** * Python runtime: exceptions as values                               *)
(* ===================================================================== *)

Module Py.

(** The built-in exceptions that the modelled code paths can raise, and
    the exceptions, known by the name of their class, of the code outside
    them. *)
Inductive exn : Set :=
| ZeroDivisionError
| IndexError
| KeyError
| ValueError
| SystemExit
| ExternalError (name : string).

Definition exn_name (e : exn) : string :=
  match e with
  | ZeroDivisionError => "ZeroDivisionError"
  | IndexError => "IndexError"
  | KeyError => "KeyError"
  | ValueError => "ValueError"
  | SystemExit => "SystemExit"
  | ExternalError n => n
  end.

Inductive result (A : Type) : Type :=
| Ok (a : A)
| Raise (e : exn).
Arguments Ok {A} a.
Arguments Raise {A} e.

Definition bind {A B : Type} (r : result A) (k : A -> result B) : result B :=
  match r with
  | Ok a => k a
  | Raise e => Raise e
  end.

(** A run [r] fails with the exception class called [name]. *)
Definition fails_with {A : Type} (name : string) (r : result A) : Prop :=
  exists e, r = Raise e /\ exn_name e = name.

End Py.

Export Py (Ok, Raise).

(** [x ← r; k] runs [r] and passes its value on, or propagates its
    exception. *)
#[export] Instance result_bind : MBind Py.result :=
  fun A B k r => Py.bind r k.

(* ===================================================================== *)
(** * main_eval.py                                                        *)
(* ===================================================================== *)

Module main_eval.

(** A 1-d tensor and an [N x D] feature matrix. *)
Definition Tensor := list R.
Definition Array := list Tensor.

Definition rsum (l : list R) : R := fold_right Rplus 0%R l.

(** [x1 @ x2] on 1-d tensors. *)
Definition dot (x1 x2 : Tensor) : R :=
  rsum (map (fun ab => (fst ab * snd ab)%R) (combine x1 x2)).

Definition norm (x : Tensor) : R := sqrt (dot x x).

(** torch's default [eps] of [cosine_similarity]. *)
Definition eps : R := (/ 100000000)%R.

(** [F.cosine_similarity(x1, x2, dim=0)]: each vector is divided by its
    norm, clamped from below at [eps], and the quotients are multiplied
    entrywise and summed: [((x1 / n1) * (x2 / n2)).sum()]. *)
Definition cosine_similarity (x1 x2 : Tensor) : R :=
  let n1 := Rmax (norm x1) eps in
  let n2 := Rmax (norm x2) eps in
  dot (map (fun a => (a / n1)%R) x1) (map (fun b => (b / n2)%R) x2).

(** [F.softmax(x, dim=0)] *)
Definition softmax (x : list R) : list R :=
  let z := rsum (map exp x) in
  map (fun xi => (exp xi / z)%R) x.

(** [torch.argmax]: index of the first maximal entry.  [argmax_from best
    bestv i l] scans [l], whose head has index [i], knowing that the best
    entry so far is [bestv] at index [best]. *)
Fixpoint argmax_from (best : nat) (bestv : R) (i : nat) (l : list R) : nat :=
  match l with
  | [] => best
  | x :: l' =>
      if Rlt_dec bestv x
      then argmax_from i x (S i) l'
      else argmax_from best bestv (S i) l'
  end.

(** Only ever applied to the three similarities of a triplet; the empty
    case (an error in torch) is unreachable. *)
Definition argmax (l : list R) : nat :=
  match l with
  | [] => O
  | x :: l' => argmax_from 0 x 1 l'
  end.

(** [features[i]] with an integer index: Python wrap-around for negative
    indices, [IndexError] outside [-N, N). *)
Definition getitem (features : Array) (i : Z) : Py.result Tensor :=
  let n := Z.of_nat (length features) in
  if ((0 <=? i) && (i <? n))%Z then Ok (nth (Z.to_nat i) features [])
  else if ((- n <=? i) && (i <? 0))%Z then Ok (nth (Z.to_nat (i + n)) features [])
  else Raise Py.IndexError.

(** [triplet[i]] for a position [i] of [pairs]; the stacked tensor has
    exactly three rows, so the default is never returned. *)
Definition row (triplet : list Tensor) (i : nat) : Tensor := nth i triplet [].

Definition compute_similarities (triplet : list Tensor) (pairs : list (nat * nat)) : list R :=
  map (fun p => cosine_similarity (row triplet (fst p)) (row triplet (snd p))) pairs.

Definition pairs : list (nat * nat) := [(0, 1); (0, 2); (1, 2)]%nat.
Definition indices : gset nat := {[ 0%nat; 1%nat; 2%nat ]}.

(** [s.difference(p)] for a tuple [p] of two positions. *)
Definition difference (s : gset nat) (p : nat * nat) : gset nat :=
  s ∖ {[ fst p; snd p ]}.

(** [s.pop()] *)
Definition pop (s : gset nat) : Py.result nat :=
  match elements s with
  | [] => Raise Py.KeyError
  | x :: _ => Ok x
  end.

(** Body of the loop of [get_predictions] once the three rows are
    stacked: the odd-one-out position, the recorded choice, and the
    confidences. *)
Definition predict (triplet : list Tensor) : Py.result (nat * bool * list R) :=
  let similarities := compute_similarities triplet pairs in
  let most_sim_pair := nth (argmax similarities) pairs (0, 0)%nat in
  ooo_idx ← pop (difference indices most_sim_pair);
  Ok (ooo_idx, Nat.eqb ooo_idx 2, softmax similarities).

Definition stack (features : Array) (t : Z * Z * Z) : Py.result (list Tensor) :=
  let '(i, j, k) := t in
  fi ← getitem features i;
  fj ← getitem features j;
  fk ← getitem features k;
  Ok [fi; fj; fk].

Fixpoint get_predictions_loop (features : Array) (triplets : list (Z * Z * Z))
    (choices : list bool) (probas : list (list R))
  : Py.result (list bool * list (list R)) :=
  match triplets with
  | [] => Ok (choices, probas)
  | t :: rest =>
      triplet ← stack features t;
      r ← predict triplet;
      get_predictions_loop features rest
        (choices ++ [snd (fst r)]) (probas ++ [snd r])
  end.

Definition get_predictions (features : Array) (triplets : list (Z * Z * Z))
  : Py.result (list bool * list (list R)) :=
  get_predictions_loop features triplets [] [].

(** [sum(choices)] on a list of booleans. *)
Definition sum (choices : list bool) : nat :=
  fold_right (fun (b : bool) n => ((if b then 1 else 0) + n)%nat) 0%nat choices.

(** Round half to even, to the nearest integer. *)
Definition round_half_even (q : Q) : Z :=
  let f := Qfloor q in
  match Qcompare (q - inject_Z f) (1 # 2) with
  | Lt => f
  | Gt => (f + 1)%Z
  | Eq => if Z.even f then f else (f + 1)%Z
  end.

(** [round(q, ndigits)], on the exact quotient.  Python rounds the binary
    double nearest to the quotient; the two agree except, possibly, in the
    last digit when the quotient lies exactly halfway between two numbers
    of [ndigits] decimals. *)
Definition round (q : Q) (ndigits : nat) : Q :=
  let scale := Z.to_pos (10 ^ Z.of_nat ndigits) in
  Qred (round_half_even (q * inject_Z (Zpos scale)) # scale).

Definition accuracy (choices : list bool) : Py.result Q :=
  match length choices with
  | O => Raise Py.ZeroDivisionError
  | S _ => Ok (round (Z.of_nat (sum choices) # Pos.of_nat (length choices)) 4)
  end.

Definition entropy (p : list R) : R :=
  (- rsum (map (fun x => if Rlt_dec 0 x then x * ln x else 0) p))%R.

Definition ventropy (probabilities : list (list R)) : list R :=
  map entropy probabilities.

Definition mean (l : list R) : R := (rsum l / INR (length l))%R.

Record summary : Type := {
  summary_accuracy : Q;
  summary_mean_entropy : R;
  summary_entropies : list R;
  summary_probas : list (list R)
}.

(** The scoring steps of [evaluate] for one model, from the extracted
    [features] on (model loading, feature extraction and file output are
    external).  [summary_probas] is what [save_triplet_probas] writes. *)
Definition evaluate (features : Array) (triplets : list (Z * Z * Z)) : Py.result summary :=
  cp ← get_predictions features triplets;
  acc ← accuracy (fst cp);
  let entropies := ventropy (snd cp) in
  let mean_entropy := mean entropies in
  Ok {| summary_accuracy := acc;
        summary_mean_entropy := mean_entropy;
        summary_entropies := entropies;
        summary_probas := snd cp |}.

End main_eval.

(* ===================================================================== *)
(** * utils/evaluation: the configurable scorer                           *)
(* ===================================================================== *)

Module utils_evaluation.
Import main_eval.

(** Modelled from the spec: the distance metrics that the configurable
    scorer [utils.evaluation.get_predictions] supports (the function is not
    among the source files; section 9 of the specification enumerates
    cosine and euclidean). *)
Inductive metric : Set := Cosine | Euclidean.

(** Modelled from the spec: the metric that a value of [--distance] names
    (the dispatch is inside [utils.evaluation.get_predictions], absent from
    the source files). *)
Definition metric_of_string (s : string) : option metric :=
  if String.eqb s "cosine" then Some Cosine
  else if String.eqb s "euclidean" then Some Euclidean
  else None.

(** Modelled from the spec: the Euclidean distance of section 4.1 (its
    implementation in [utils.evaluation] is absent from the source
    files). *)
Definition euclidean_distance (x1 x2 : Tensor) : R :=
  sqrt (rsum (map (fun ab => ((fst ab - snd ab) * (fst ab - snd ab))%R) (combine x1 x2))).

(** Modelled from the spec: the pairwise similarity of
    [utils.evaluation.get_predictions] (absent from the source files).
    Following section 4.1 of the specification it is the cosine similarity
    or, for the Euclidean metric, the distance with its sign inverted, so
    that a lower distance is a higher similarity. *)
Definition similarity (dist : metric) (x1 x2 : Tensor) : R :=
  match dist with
  | Cosine => cosine_similarity x1 x2
  | Euclidean => (- euclidean_distance x1 x2)%R
  end.

(** Modelled from the spec: steps 1 to 4 of section 4.1 for one stacked
    triplet of [utils.evaluation.get_predictions] (absent from the source
    files), with a temperature-scaled softmax. *)
Definition predict (temperature : R) (dist : metric) (triplet : list Tensor)
  : Py.result (nat * bool * list R) :=
  let similarities :=
    map (fun p => similarity dist (row triplet (fst p)) (row triplet (snd p))) pairs in
  let most_sim_pair := nth (argmax similarities) pairs (0, 0)%nat in
  ooo_idx ← pop (difference indices most_sim_pair);
  Ok (ooo_idx, Nat.eqb ooo_idx 2,
      softmax (map (fun s => (s / temperature)%R) similarities)).

(** Modelled from the spec: the loop of [utils.evaluation.get_predictions]
    over the triplets (absent from the source files). *)
Fixpoint get_predictions_loop (features : Array) (triplets : list (Z * Z * Z))
    (temperature : R) (dist : metric) (choices : list bool) (probas : list (list R))
  : Py.result (list bool * list (list R)) :=
  match triplets with
  | [] => Ok (choices, probas)
  | t :: rest =>
      triplet ← stack features t;
      r ← predict temperature dist triplet;
      get_predictions_loop features rest temperature dist
        (choices ++ [snd (fst r)]) (probas ++ [snd r])
  end.

(** Modelled from the spec: [utils.evaluation.get_predictions(features,
    triplets, temperature, dist)] (absent from the source files; its call is
    in [main_layer_eval.evaluate]).  The specification names no metric
    besides the two; any other string is an error. *)
Definition get_predictions (features : Array) (triplets : list (Z * Z * Z))
    (temperature : R) (dist : string) : Py.result (list bool * list (list R)) :=
  match metric_of_string dist with
  | Some m => get_predictions_loop features triplets temperature m [] []
  | None => Raise (Py.ExternalError "Exception")
  end.

End utils_evaluation.

(* ===================================================================== *)
(** * main_layer_eval.py                                                  *)
(* ===================================================================== *)

Module main_layer_eval.
Import main_eval.


Record Args : Type := { distance : string }.


(** The scoring call of [evaluate]:
    [utils.evaluation.get_predictions(features, triplets, 1.0,
    args.distance)]. *)
Definition evaluate (args : Args) (features : Array) (triplets : list (Z * Z * Z))
  : Py.result (list bool * list (list R)) :=
  utils_evaluation.get_predictions features triplets 1%R (distance args).

End main_layer_eval.

(* ===================================================================== *)
(** * main_model_sim_eval.py                                              *)
(* ===================================================================== *)

Module main_model_sim_eval.

Definition newline : string := String (ascii_of_nat 10) EmptyString.

(** [s.split(sep)] for a one-character separator. *)
Fixpoint split_from (sep : ascii) (s : string) (cur : string) : list string :=
  match s with
  | EmptyString => [cur]
  | String c s' =>
      if Ascii.eqb c sep
      then cur :: split_from sep s' EmptyString
      else split_from sep s' (cur ++ String c EmptyString)%string
  end.

Definition split (sep : ascii) (s : string) : list string :=
  split_from sep s EmptyString.

Definition startswith (s p : string) : bool := String.prefix p s.

Definition underscore : ascii := ascii_of_nat 95.

(** Lines 203 to 211: the extractor name and its parameters. *)
Definition model_parameters (model_name : string)
  : Py.result (string * option (list (string * string))) :=
  if startswith model_name "OpenCLIP" then
    match split underscore model_name with
    | [name; variant; data] =>
        Ok (name, Some [("variant", variant); ("dataset", data)]%string)
    | _ => Raise Py.ValueError
    end
  else if startswith model_name "clip" then
    match split underscore model_name with
    | [name; variant] => Ok (name, Some [("variant", variant)]%string)
    | _ => Raise Py.ValueError
    end
  else Ok (model_name, None).

Record Args : Type := {
  use_transforms : bool;
  transform_type : string;
  module : string;
  dataset : string;
  category : option string
}.

Record ModelCfg : Type := {
  names : list string;
  modules : list string;
  sources : list string
}.

(** [try: x = r  except KeyError: handler] followed by [k x]. *)
Definition try_except_KeyError {A B : Type}
    (r : Py.result A) (handler : Py.result B) (k : A -> Py.result B) : Py.result B :=
  match r with
  | Ok x => k x
  | Raise Py.KeyError => handler
  | Raise e => Raise e
  end.

Section Evaluate.
(** Arrays, datasets and statistics are produced and consumed by the
    external collaborators only. *)
Context {Features Dataset Stat : Type}.

(** [utils.analyses.get_family_name] *)
Variable get_family_name : string -> Py.result string.
(** Lines 214 to 260: extractor, transformations, dataset, batches and
    feature extraction, from the extractor name, the source, the model
    parameters, the model name and the module name. *)
Variable extract_features :
  string -> string -> option (list (string * string)) -> string -> string ->
  Py.result (Dataset * Features).
(** Lines 281 to 287: standardisation with the THINGS features, the
    product with the transformation matrix, and the normalisation. *)
Variable apply_transform : Features -> Features -> Features -> string -> Py.result Features.
(** [utils.evaluation.perform_rsa] *)
Variable perform_rsa : Dataset -> string -> Features -> Py.result (gmap string Stat).

Variable args : Args.
Variable model_cfg : ModelCfg.
(** [utils.evaluation.load_features] and [utils.evaluation.load_transforms],
    read only when [args.use_transforms] is set. *)
Variable things_features : gmap string (gmap string (gmap string Features)).
Variable transforms : gmap string (gmap string (gmap string Features)).

Record summary : Type := {
  summary_model : string;
  spearman_rho_cosine : Stat;
  pearson_corr_cosine : Stat;
  spearman_rho_correlation : Stat;
  pearson_corr_correlation : Stat;
  summary_source : string;
  summary_family : string;
  summary_dataset : string;
  summary_category : option string;
  summary_transform : bool;
  summary_transform_type : option string
}.

Record state : Type := {
  results : list summary;
  model_features : gmap string (gmap string (gmap string Features));
  warnings : list string
}.

Definition initial : state :=
  {| results := []; model_features := ∅; warnings := [] |}.

(** [d[k]] on a dictionary. *)
Definition dict_get {V : Type} (d : gmap string V) (k : string) : Py.result V :=
  match d !! k with
  | Some v => Ok v
  | None => Raise Py.KeyError
  end.

(** [d[a][b][c]] *)
Definition dict_get3 {V : Type} (d : gmap string (gmap string (gmap string V)))
    (a b c : string) : Py.result V :=
  da ← dict_get d a;
  db ← dict_get da b;
  dict_get db c.

(** [d[a][b][c] = v] on a [defaultdict] of [defaultdict]s of [dict]s. *)
Definition dict_set3 {V : Type} (d : gmap string (gmap string (gmap string V)))
    (a b c : string) (v : V) : gmap string (gmap string (gmap string V)) :=
  let da := default ∅ (d !! a) in
  let db := default ∅ (da !! b) in
  <[a := <[b := <[c := v]> db]> da]> d.

(** [modules[i]] *)
Definition list_get (l : list string) (i : nat) : Py.result string :=
  match l !! i with
  | Some x => Ok x
  | None => Raise Py.IndexError
  end.

Definition missing_transform (model_name : string) : string :=
  (newline ++ "Could not find transformation matrix for " ++ model_name ++ "."
   ++ newline ++ "Skipping evaluation for " ++ model_name
   ++ " and continuing with next model..." ++ newline)%string.

Definition missing_embedding (model_name : string) : string :=
  (newline ++ "Could not find embedding matrix of " ++ model_name
   ++ " for the THINGS dataset."
   ++ newline ++ "Skipping evaluation for " ++ model_name
   ++ " and continuing with next model..." ++ newline)%string.

(** [warnings.warn(message, UserWarning)] *)
Definition warn (message : string) (st : state) : state :=
  {| results := results st;
     model_features := model_features st;
     warnings := warnings st ++ [message] |}.

(** What lines 262 to 287 leave behind: [continue], or the features to
    evaluate. *)
Inductive outcome : Type :=
| Continue (message : string)
| Evaluate (features : Features).

Definition transform_features (model_name source : string) (features : Features)
  : Py.result outcome :=
  if use_transforms args then
    try_except_KeyError
      (dict_get3 transforms source model_name (module args))
      (Ok (Continue (missing_transform model_name)))
      (fun transform =>
         try_except_KeyError
           (dict_get3 things_features source model_name (module args))
           (Ok (Continue (missing_embedding model_name)))
           (fun things_features_current_model =>
              features' ← apply_transform features things_features_current_model
                            transform (transform_type args);
              Ok (Evaluate features')))
  else Ok (Evaluate features).

(** One iteration of the loop over the models. *)
Definition step (st : state) (i : nat) (model_name source : string) : Py.result state :=
  np ← model_parameters model_name;
  family_name ← get_family_name model_name;
  module_name ← list_get (modules model_cfg) i;
  df ← extract_features (fst np) source (snd np) model_name module_name;
  o ← transform_features model_name source (snd df);
  match o with
  | Continue message => Ok (warn message st)
  | Evaluate features =>
      rsa_stats ← perform_rsa (fst df) (dataset args) features;
      spearman_rho_cosine ← dict_get rsa_stats "spearman_rho_cosine_kernel";
      spearman_rho_corr ← dict_get rsa_stats "spearman_rho_corr_kernel";
      pearson_corr_coef_cosine ← dict_get rsa_stats "pearson_corr_coef_cosine_kernel";
      pearson_corr_coef_corr ← dict_get rsa_stats "pearson_corr_coef_corr_kernel";
      let summary :=
        {| summary_model := model_name;
           spearman_rho_cosine := spearman_rho_cosine;
           pearson_corr_cosine := pearson_corr_coef_cosine;
           spearman_rho_correlation := spearman_rho_corr;
           pearson_corr_correlation := pearson_corr_coef_corr;
           summary_source := source;
           summary_family := family_name;
           summary_dataset := dataset args;
           summary_category := category args;
           summary_transform := use_transforms args;
           summary_transform_type :=
             if use_transforms args then Some (transform_type args) else None |} in
      Ok {| results := results st ++ [summary];
            model_features :=
              dict_set3 (model_features st) source model_name (module args) features;
            warnings := warnings st |}
  end.

Fixpoint loop (models : list (nat * (string * string))) (st : state) : Py.result state :=
  match models with
  | [] => Ok st
  | (i, (model_name, source)) :: rest =>
      st' ← step st i model_name source;
      loop rest st'
  end.

(** [enumerate(zip(names, sources))] *)
Definition enumerate_zip (names sources : list string) : list (nat * (string * string)) :=
  let z := combine names sources in
  combine (seq 0 (length z)) z.

Definition evaluate : Py.result state :=
  loop (enumerate_zip (names model_cfg) (sources model_cfg)) initial.

End Evaluate.

(** The built-in [Exception] that [get_module_names] raises. *)
Definition Exception : Py.exn := Py.ExternalError "Exception".

(** The loop of [get_module_names]; [model_config] is the content of
    [model_dict.json]: model, then module, then the key ["module_name"]. *)
Fixpoint get_module_names_loop (model_config : gmap string (gmap string (gmap string string)))
    (models : list string) (module : string) (module_names : list string)
  : Py.result (list string) :=
  match models with
  | [] => Ok module_names
  | model :: rest =>
      try_except_KeyError
        (dict_get3 model_config model module "module_name")
        (Raise Exception)
        (fun module_name =>
           get_module_names_loop model_config rest module (module_names ++ [module_name]))
  end.

Definition get_module_names (model_config : gmap string (gmap string (gmap string string)))
    (models : list string) (module : string) : Py.result (list string) :=
  get_module_names_loop model_config models module [].

(** The model half of [create_config_dicts], from [args.model_names],
    [args.sources] and [args.module] ([input_dim] and the data
    configuration are not used by the loop). *)
Definition create_config_dicts (model_config : gmap string (gmap string (gmap string string)))
    (model_names sources : list string) (module : string) : Py.result ModelCfg :=
  module_names ← get_module_names model_config model_names module;
  Ok {| names := model_names; modules := module_names; sources := sources |}.

End main_model_sim_eval.

(* ===================================================================== *)
(** * Vocabulary of the statements                                        *)
(* ===================================================================== *)

Module scorer.
Import main_eval.

(** [i] is an index into [features] in the sense of the data model:
    [0 <= i < N]. *)
Definition in_bounds (features : Array) (i : Z) : bool :=
  ((0 <=? i) && (i <? Z.of_nat (length features)))%Z.

(** [i] is an index that [features[i]] accepts: [-N <= i < N]. *)
Definition in_range (features : Array) (i : Z) : bool :=
  ((- Z.of_nat (length features) <=? i) && (i <? Z.of_nat (length features)))%Z.

Definition all3 (P : Z -> bool) (t : Z * Z * Z) : bool :=
  P (fst (fst t)) && P (snd (fst t)) && P (snd t).

Definition distinct3 (t : Z * Z * Z) : bool :=
  negb (fst (fst t) =? snd (fst t))%Z && negb (fst (fst t) =? snd t)%Z
  && negb (snd (fst t) =? snd t)%Z.

(** The row that [features[i]] denotes for an accepted index. *)
Definition item (features : Array) (i : Z) : Tensor :=
  nth (Z.to_nat (if (i <? 0)%Z then i + Z.of_nat (length features) else i)%Z) features [].

Definition stacked (features : Array) (t : Z * Z * Z) : list Tensor :=
  [item features (fst (fst t)); item features (snd (fst t)); item features (snd t)].

(** The similarities of the pairs (0,1), (0,2), (1,2) of a triplet. *)
Definition similarities_of (features : Array) (t : Z * Z * Z) : list R :=
  compute_similarities (stacked features t) pairs.

(** [idx] is a position of a maximal entry of [sims]. *)
Definition maximal_at (sims : list R) (idx : nat) : Prop :=
  (idx < length sims)%nat /\
  forall j, (j < length sims)%nat -> (nth j sims 0 <= nth idx sims 0)%R.

(** [idx] is the first position of a maximal entry of [sims]. *)
Definition first_maximal_at (sims : list R) (idx : nat) : Prop :=
  maximal_at sims idx /\
  forall j, (j < idx)%nat -> (nth j sims 0 < nth idx sims 0)%R.

(** [ooo] is the position of the triplet that is not in the pair [p]. *)
Definition not_in_pair (p : nat * nat) (ooo : nat) : Prop :=
  ooo ∈ indices /\ ooo <> fst p /\ ooo <> snd p.

(** Steps 2 and 3 of the scorer's contract: some pair of maximal
    similarity is taken and [ooo] is the position outside it. *)
Definition odd_one_out (sims : list R) (ooo : nat) : Prop :=
  exists idx p, pairs !! idx = Some p /\ maximal_at sims idx /\ not_in_pair p ooo.

(** The position outside the pair number [idx] of [pairs]. *)
Definition odd_position (idx : nat) : nat := (2 - idx)%nat.

Definition choice_of (features : Array) (t : Z * Z * Z) : bool :=
  Nat.eqb (odd_position (argmax (similarities_of features t))) 2.

Definition probas_of (features : Array) (t : Z * Z * Z) : list R :=
  softmax (similarities_of features t).

(** The validation that section 7 of the specification asks for: a triplet
    with repeated or out-of-bounds indices is rejected with an
    [InvalidInput] error. *)
Definition rejects_invalid (features : Array) (t : Z * Z * Z) : Prop :=
  distinct3 t && all3 (in_bounds features) t = false ->
  Py.fails_with "InvalidInput" (get_predictions features [t]).

(** The mean of a correctness vector, [True] counting 1 and [False] 0. *)
Definition mean_correct (choices : list bool) : Q :=
  Z.of_nat (sum choices) # Pos.of_nat (length choices).

(** [r] is [x] rounded to 4 decimal places: a multiple of 1/10000 at
    distance at most 1/20000 from [x]. *)
Definition rounded_4dp (x r : Q) : Prop :=
  (exists z : Z, r == z # 10000)%Q /\ (Qabs (r - x) <= 1 # 20000)%Q.

Definition all_correct (choices : list bool) : bool := forallb (fun b : bool => b) choices.
Definition all_incorrect (choices : list bool) : bool := forallb negb choices.

(** [p * log p] with the convention [0 * log 0 = 0]. *)
Definition xlogx (p : R) : R := if Req_dec_T p 0 then 0%R else (p * ln p)%R.

(** The entropy of the specification: minus the sum of [p * log p]. *)
Definition shannon_entropy (p : list R) : R := (- rsum (map xlogx p))%R.

(** A confidence vector: three nonnegative numbers that sum to 1. *)
Definition confidences (p : list R) : Prop :=
  length p = 3%nat /\ Forall (fun x => (0 <= x)%R) p /\ rsum p = 1%R.

(** [x] agrees with the three-decimal value [y]: it is within half a unit
    of the third decimal place. *)
Definition agree_3dp (x y : R) : Prop := (Rabs (x - y) <= 0.0005)%R.

(** The squared distance of [w] from [t * v]. *)
Definition residual (t : R) (v w : Tensor) : R :=
  rsum (map (fun ab => ((snd ab - t * fst ab) * (snd ab - t * fst ab))%R) (combine v w)).

(** [a], [b], [c] are the three positions of a triplet in some order. *)
Definition arrangement (a b c : nat) : Prop :=
  (a < 3 /\ b < 3 /\ c < 3 /\ a <> b /\ a <> c /\ b <> c)%nat.

(** The first testable property of the specification for one stacked
    triplet whose positions [a] and [b] hold identical vectors and whose
    position [c] holds a different one. *)
Definition identical_pair_predicts (triplet : list Tensor) (a b c : nat) : Prop :=
  arrangement a b c ->
  row triplet a = row triplet b -> row triplet c <> row triplet a ->
  exists probas, predict triplet = Ok (c, Nat.eqb c 2, probas).

End scorer.

(** Certified decimal bounds on [exp], by repeated squaring in fixed-point
    arithmetic. *)
Module bounds.

(** Fixed-point numbers with 18 decimals. *)
Definition scale : Z := (10 ^ 18)%Z.

(** [square_down n a]: [n] successive squarings of the fixed-point number
    [a], each rounded down. *)
Fixpoint square_down (n : nat) (a : Z) : Z :=
  match n with
  | O => a
  | S n' => square_down n' (a * a / scale)
  end.

(** A fixed-point number below [exp (p / q)]:
    [(1 + p / (q * 2 ^ n)) ^ (2 ^ n)], rounded down. *)
Definition exp_below (n : nat) (p : Z) (q : positive) : Z :=
  square_down n ((2 ^ Z.of_nat n * Zpos q + p) * scale / (2 ^ Z.of_nat n * Zpos q)).

End bounds.

(** Vocabulary for the statements about model names. *)
Module naming.

(** The number of occurrences of the character [c] in [s]. *)
Fixpoint count_char (c : ascii) (s : string) : nat :=
  match s with
  | EmptyString => 0
  | String c' s' => ((if Ascii.eqb c' c then 1 else 0) + count_char c s')%nat
  end.

(** [sep.join(parts)] for a one-character separator. *)
Fixpoint join (sep : ascii) (parts : list string) : string :=
  match parts with
  | [] => EmptyString
  | [x] => x
  | x :: rest => (x ++ String sep (join sep rest))%string
  end.

End naming.

(** Concrete inputs used to exercise the statements. *)
Module examples.
Import main_eval.

(** The feature matrix of the worked example of the specification. *)
Definition features : Array := [[1; 0]; [1; 0]; [0; 1]]%R.
Definition triplet : Z * Z * Z := (0, 1, 2)%Z.

(** Rows 0 and 2 are identical; row 1 is a positive multiple of them. *)
Definition parallel_features : Array := [[1; 0]; [2; 0]; [1; 0]]%R.

(** Rows 0 and 1 are identical and of norm [1e-9], below torch's [eps];
    row 2 points elsewhere. *)
Definition tiny_features : Array := [[/ 1000000000; 0]; [/ 1000000000; 0]; [1; 1]]%R.

(** Three identical rows. *)
Definition constant_features : Array := [[1; 0]; [1; 0]; [1; 0]]%R.

(** A run of the model loop with [--use_transforms] in which no
    transformation matrix was loaded; the external collaborators are
    stand-ins on numbers. *)
Definition loop_args : main_model_sim_eval.Args :=
  {| main_model_sim_eval.use_transforms := true;
     main_model_sim_eval.transform_type := "without_norm";
     main_model_sim_eval.module := "penultimate";
     main_model_sim_eval.dataset := "things";
     main_model_sim_eval.category := None |}.

Definition loop_cfg : main_model_sim_eval.ModelCfg :=
  {| main_model_sim_eval.names := ["resnet18"]%string;
     main_model_sim_eval.modules := ["avgpool"]%string;
     main_model_sim_eval.sources := ["torchvision"]%string |}.

Definition loop_family (model_name : string) : Py.result string := Ok "ResNet"%string.

Definition loop_extract (name source : string) (params : option (list (string * string)))
    (model_name module_name : string) : Py.result (unit * nat) := Ok (tt, 0%nat).

Definition loop_transform (features things transform : nat) (type : string)
  : Py.result nat := Ok features.

Definition loop_rsa (dataset : unit) (data_source : string) (features : nat)
  : Py.result (gmap string nat) := Ok ∅.

End examples.

(** Vocabulary for the statements about the loop over the models. *)
Module accounting.
Import main_model_sim_eval.

(** The result record [r] carries the settings of the run, and the features
    of its model are in the dictionary [mf] of stored features. *)
Definition stored {Features Stat : Type} (args : Args)
    (mf : gmap string (gmap string (gmap string Features))) (r : @summary Stat) : Prop :=
  summary_dataset r = dataset args
  /\ summary_transform r = use_transforms args
  /\ summary_transform_type r
     = (if use_transforms args then Some (transform_type args) else None)
  /\ exists features,
       dict_get3 mf (summary_source r) (summary_model r) (module args) = Ok features.

(** The statistics that [evaluate] reads from the result of
    [perform_rsa]. *)
Definition rsa_keys : list string :=
  ["spearman_rho_cosine_kernel"; "spearman_rho_corr_kernel";
   "pearson_corr_coef_cosine_kernel"; "pearson_corr_coef_corr_kernel"]%string.

(** A run without [--use_transforms], and a [model_dict.json] with one
    model. *)
Definition plain_args : Args :=
  {| use_transforms := false;
     transform_type := "without_norm";
     module := "penultimate";
     dataset := "things";
     category := None |}.

Definition model_config : gmap string (gmap string (gmap string string)) :=
  {[ "resnet18"%string :=
       {[ "penultimate"%string := {[ "module_name"%string := "avgpool"%string ]} ]} ]}.

(** Transformation matrices and THINGS embeddings with an entry for the
    model of the example run. *)
Definition loaded : gmap string (gmap string (gmap string nat)) :=
  {[ "torchvision"%string :=
       {[ "resnet18"%string := {[ "penultimate"%string := 0%nat ]} ]} ]}.

(** A stand-in for [perform_rsa] that returns all four statistics. *)
Definition full_rsa (dataset : unit) (data_source : string) (features : nat)
  : Py.result (gmap string nat) :=
  Ok (list_to_map (map (fun key => (key, 0%nat)) rsa_keys)).

End accounting.

(* ===================================================================== *)
(** * Facts about the scorer of main_eval.py                              *)
(* ===================================================================== *)

Section ArgmaxFacts.
Import main_eval scorer.
Local Open Scope R_scope.

Lemma argmax_from_spec (l : list R) :
  forall (best : nat) (bestv : R) (i : nat),
    let r := argmax_from best bestv i l in
    (r = best /\ forall j, (j < length l)%nat -> nth j l 0 <= bestv)
    \/ (exists n, r = (i + n)%nat /\ (n < length l)%nat /\ bestv < nth n l 0
          /\ (forall j, (j < length l)%nat -> nth j l 0 <= nth n l 0)
          /\ (forall j, (j < n)%nat -> nth j l 0 < nth n l 0)).
Proof.
  induction l as [|x l IH]; intros best bestv i; simpl.
  - left. split; [reflexivity | intros j Hj; lia].
  - destruct (Rlt_dec bestv x) as [Hlt | Hge].
    + destruct (IH i x (S i)) as [[Hr Hall] | (n & Hr & Hn & Hgt & Hmax & Hfirst)].
      * right. exists 0%nat. repeat split.
        -- rewrite Hr. lia.
        -- lia.
        -- exact Hlt.
        -- intros [|j] Hj; [lra | apply Hall; lia].
        -- intros j Hj. lia.
      * right. exists (S n). repeat split.
        -- rewrite Hr. lia.
        -- lia.
        -- simpl. lra.
        -- intros [|j] Hj; simpl; [lra | apply Hmax; lia].
        -- intros [|j] Hj; simpl; [lra | apply Hfirst; lia].
    + destruct (IH best bestv (S i)) as [[Hr Hall] | (n & Hr & Hn & Hgt & Hmax & Hfirst)].
      * left. split; [exact Hr |].
        intros [|j] Hj; [lra | apply Hall; lia].
      * right. exists (S n). repeat split.
        -- rewrite Hr. lia.
        -- lia.
        -- exact Hgt.
        -- intros [|j] Hj; simpl; [lra | apply Hmax; lia].
        -- intros [|j] Hj; simpl; [lra | apply Hfirst; lia].
Qed.

(** [argmax] returns the first position of a maximal entry. *)
Lemma argmax_first_maximal (l : list R) :
  l <> [] -> first_maximal_at l (argmax l).
Proof.
  destruct l as [|x l]; [congruence | intros _].
  unfold argmax.
  destruct (argmax_from_spec l 0 x 1) as [[Hr Hall] | (n & Hr & Hn & Hgt & Hmax & Hfirst)];
    rewrite Hr.
  - repeat split.
    + simpl. lia.
    + intros [|j] Hj; simpl; [lra | apply Hall; simpl in Hj; lia].
    + intros j Hj. lia.
  - repeat split.
    + simpl. lia.
    + intros [|j] Hj; simpl; [lra | apply Hmax; simpl in Hj; lia].
    + intros [|j] Hj; simpl; [lra | apply Hfirst; lia].
Qed.

Lemma length_compute_similarities (triplet : list Tensor) (ps : list (nat * nat)) :
  length (compute_similarities triplet ps) = length ps.
Proof. unfold compute_similarities. apply length_map. Qed.

Lemma argmax_similarities_lt (triplet : list Tensor) :
  (argmax (compute_similarities triplet pairs) < 3)%nat.
Proof.
  pose proof (argmax_first_maximal (compute_similarities triplet pairs)) as H.
  destruct H as [[Hlt _] _]; [discriminate |].
  rewrite length_compute_similarities in Hlt. exact Hlt.
Qed.

End ArgmaxFacts.

Section ScorerFacts.
Import main_eval scorer.
Local Open Scope R_scope.

Lemma pop_difference (idx : nat) :
  (idx < 3)%nat ->
  pop (difference indices (nth idx pairs (0, 0)%nat)) = Ok (odd_position idx).
Proof.
  intros H.
  destruct idx as [|[|[|idx]]]; [vm_compute; reflexivity .. | lia].
Qed.

Lemma odd_position_not_in_pair (idx : nat) (p : nat * nat) :
  pairs !! idx = Some p -> not_in_pair p (odd_position idx).
Proof.
  intros H.
  destruct idx as [|[|[|idx]]]; simpl in H; try discriminate;
    injection H as <-; unfold not_in_pair, odd_position, indices; simpl;
    (split; [set_solver | lia]).
Qed.

(** The loop body never fails, and its result is determined by [argmax]. *)
Lemma predict_eq (triplet : list Tensor) :
  let sims := compute_similarities triplet pairs in
  predict triplet
  = Ok (odd_position (argmax sims), Nat.eqb (odd_position (argmax sims)) 2, softmax sims).
Proof.
  intros sims. unfold predict. fold sims.
  rewrite (pop_difference (argmax sims)) by apply argmax_similarities_lt.
  reflexivity.
Qed.

Lemma getitem_eq (features : Array) (i : Z) :
  getitem features i
  = if in_range features i then Ok (item features i) else Raise Py.IndexError.
Proof.
  unfold getitem, in_range, item.
  destruct (Z.leb_spec 0 i), (Z.ltb_spec i (Z.of_nat (length features))),
    (Z.leb_spec (- Z.of_nat (length features)) i), (Z.ltb_spec i 0);
    simpl; try reflexivity; lia.
Qed.

Lemma stack_eq (features : Array) (t : Z * Z * Z) :
  stack features t
  = if all3 (in_range features) t then Ok (stacked features t) else Raise Py.IndexError.
Proof.
  destruct t as [[i j] k]. unfold stack, all3, stacked. simpl.
  rewrite !getitem_eq.
  destruct (in_range features i), (in_range features j), (in_range features k);
    reflexivity.
Qed.

Lemma get_predictions_loop_eq (features : Array) (triplets : list (Z * Z * Z)) :
  forall choices probas,
    get_predictions_loop features triplets choices probas
    = if forallb (all3 (in_range features)) triplets
      then Ok (choices ++ map (choice_of features) triplets,
               probas ++ map (probas_of features) triplets)
      else Raise Py.IndexError.
Proof.
  induction triplets as [|t rest IH]; intros choices probas; simpl.
  - rewrite !app_nil_r. reflexivity.
  - rewrite stack_eq.
    destruct (all3 (in_range features) t); simpl; [| reflexivity].
    rewrite predict_eq. simpl.
    rewrite IH.
    destruct (forallb (all3 (in_range features)) rest); [| reflexivity].
    rewrite <- !app_assoc. reflexivity.
Qed.

(** [get_predictions] scores every triplet when all indices are accepted
    by the feature look-up, and otherwise stops with the look-up's
    [IndexError]. *)
Lemma get_predictions_eq (features : Array) (triplets : list (Z * Z * Z)) :
  get_predictions features triplets
  = if forallb (all3 (in_range features)) triplets
    then Ok (map (choice_of features) triplets, map (probas_of features) triplets)
    else Raise Py.IndexError.
Proof. unfold get_predictions. apply get_predictions_loop_eq. Qed.

Lemma in_bounds_in_range (features : Array) (i : Z) :
  in_bounds features i = true -> in_range features i = true.
Proof.
  unfold in_bounds, in_range. intros H.
  apply andb_true_iff in H as [H1 H2]. apply andb_true_iff. split; [| exact H2].
  apply Z.leb_le. apply Z.leb_le in H1. lia.
Qed.

Lemma all3_impl (P Q : Z -> bool) (t : Z * Z * Z) :
  (forall i, P i = true -> Q i = true) -> all3 P t = true -> all3 Q t = true.
Proof.
  unfold all3. intros HPQ H.
  apply andb_true_iff in H as [H H3]. apply andb_true_iff in H as [H1 H2].
  rewrite (HPQ _ H1), (HPQ _ H2), (HPQ _ H3). reflexivity.
Qed.

Lemma forallb_in_bounds_in_range (features : Array) (triplets : list (Z * Z * Z)) :
  forallb (all3 (in_bounds features)) triplets = true ->
  forallb (all3 (in_range features)) triplets = true.
Proof.
  rewrite !forallb_forall. intros H t Ht.
  apply all3_impl with (P := in_bounds features); [apply in_bounds_in_range | auto].
Qed.

Lemma item_in_bounds (features : Array) (i : Z) :
  in_bounds features i = true -> item features i = nth (Z.to_nat i) features [].
Proof.
  unfold in_bounds, item. intros H. apply andb_true_iff in H as [H _].
  apply Z.leb_le in H. destruct (Z.ltb_spec i 0); [lia | reflexivity].
Qed.

Lemma odd_one_out_argmax (sims : list R) :
  length sims = 3%nat -> odd_one_out sims (odd_position (argmax sims)).
Proof.
  intros Hlen.
  assert (Hne : sims <> []) by (destruct sims; [discriminate | congruence]).
  destruct (argmax_first_maximal sims Hne) as [Hmax _].
  assert (Hlt : (argmax sims < 3)%nat) by (destruct Hmax as [H _]; lia).
  destruct (pairs !! argmax sims) as [p|] eqn:Hp.
  - exists (argmax sims), p. split; [exact Hp |]. split; [exact Hmax |].
    apply odd_position_not_in_pair. exact Hp.
  - apply lookup_ge_None in Hp. simpl in Hp. lia.
Qed.

(** The position outside a pair of [pairs] is unique. *)
Lemma not_in_pair_unique (idx : nat) (p : nat * nat) (ooo : nat) :
  pairs !! idx = Some p -> not_in_pair p ooo -> ooo = odd_position idx.
Proof.
  intros Hp (Hin & H1 & H2).
  unfold indices in Hin. rewrite !elem_of_union, !elem_of_singleton in Hin.
  destruct idx as [|[|[|idx]]]; simpl in Hp; try discriminate;
    injection Hp as <-; simpl in H1, H2; unfold odd_position; lia.
Qed.

End ScorerFacts.

(* ===================================================================== *)
(** * The scorer's contract (main_eval.py)                                *)
(* ===================================================================== *)

Section ScorerContract.
Import main_eval scorer.
Local Open Scope R_scope.

(** C1. For every feature matrix and every list of triplets of indices
    into it, [get_predictions] returns one entry per triplet; the entry of
    the triplet [(i, j, k)] is obtained from the cosine similarities of
    the pairs (0,1), (0,2), (1,2) of its rows: a pair of maximal
    similarity is taken, the predicted odd-one-out is the position outside
    that pair, and the recorded choice is true exactly when that position
    is 2. *)
Theorem get_predictions_odd_one_out (features : Array) (triplets : list (Z * Z * Z)) :
  forallb (all3 (in_bounds features)) triplets = true ->
  exists choices probas,
    get_predictions features triplets = Ok (choices, probas)
    /\ length choices = length triplets
    /\ forall (n : nat) (i j k : Z),
         triplets !! n = Some (i, j, k) ->
         let fi := nth (Z.to_nat i) features [] in
         let fj := nth (Z.to_nat j) features [] in
         let fk := nth (Z.to_nat k) features [] in
         let sims := [cosine_similarity fi fj; cosine_similarity fi fk;
                      cosine_similarity fj fk] in
         exists ooo : nat,
           odd_one_out sims ooo
           /\ choices !! n = Some (bool_decide (ooo = 2%nat))
           /\ probas !! n = Some (softmax sims).
Proof.
  intros Hb.
  exists (map (choice_of features) triplets), (map (probas_of features) triplets).
  split; [| split].
  - rewrite get_predictions_eq, (forallb_in_bounds_in_range _ _ Hb). reflexivity.
  - apply length_map.
  - intros n i j k Hn fi fj fk sims.
    assert (Ht : all3 (in_bounds features) (i, j, k) = true).
    { rewrite forallb_forall in Hb. apply Hb.
      apply list_elem_of_In. apply list_elem_of_lookup. eauto. }
    unfold all3 in Ht. simpl in Ht.
    apply andb_true_iff in Ht as [Ht Hk]. apply andb_true_iff in Ht as [Hi Hj].
    assert (Hs : similarities_of features (i, j, k) = sims).
    { unfold similarities_of, stacked, compute_similarities, pairs, row. simpl.
      rewrite !item_in_bounds by assumption. reflexivity. }
    exists (odd_position (argmax sims)). split; [| split].
    + apply odd_one_out_argmax. reflexivity.
    + rewrite list_lookup_fmap, Hn. simpl. unfold choice_of. rewrite Hs.
      f_equal. destruct (Nat.eqb_spec (odd_position (argmax sims)) 2) as [E | E].
      * rewrite bool_decide_eq_true_2; auto.
      * rewrite bool_decide_eq_false_2; auto.
    + rewrite list_lookup_fmap, Hn. simpl. unfold probas_of. rewrite Hs. reflexivity.
Qed.

Lemma get_predictions_odd_one_out_witness :
  forallb (all3 (in_bounds examples.features)) [examples.triplet] = true
  /\ exists choices probas,
       get_predictions examples.features [examples.triplet] = Ok (choices, probas)
       /\ length choices = 1%nat.
Proof.
  split; [reflexivity |].
  destruct (get_predictions_odd_one_out examples.features [examples.triplet] eq_refl)
    as (choices & probas & Hrun & Hlen & _).
  exists choices, probas. split; [exact Hrun | exact Hlen].
Defined.

(** C2 (as stated): running the scorer on an empty triplet list fails with
    an [InvalidInput] error.  It does not. *)
Lemma evaluate_empty_not_InvalidInput :
  ~ Py.fails_with "InvalidInput" (evaluate examples.features []).
Proof.
  intros (e & Hrun & Hname).
  change (evaluate examples.features []) with (@Raise summary Py.ZeroDivisionError) in Hrun.
  injection Hrun as <-. discriminate Hname.
Qed.

(** C2 (amended): on an empty triplet list [get_predictions] returns empty
    results and the scorer fails in [accuracy] with the
    [ZeroDivisionError] of the division by the length. *)
Theorem evaluate_empty_ZeroDivisionError (features : Array) :
  get_predictions features [] = Ok ([], [])
  /\ accuracy [] = Raise Py.ZeroDivisionError
  /\ evaluate features [] = Raise Py.ZeroDivisionError.
Proof. repeat split. Qed.

(** C3 (as stated): a triplet with repeated or out-of-bounds indices is
    rejected with an [InvalidInput] error.  On the three-row example
    matrix a repeated index is scored, the negative index [-1] is scored,
    and the index [3] fails with an [IndexError]. *)
Lemma get_predictions_no_validation :
  ~ rejects_invalid examples.features (0, 0, 1)%Z
  /\ ~ rejects_invalid examples.features (0, 1, -1)%Z
  /\ ~ rejects_invalid examples.features (0, 1, 3)%Z.
Proof.
  unfold rejects_invalid.
  repeat split; intros H; destruct (H eq_refl) as (e & Hrun & Hname);
    rewrite get_predictions_eq in Hrun; simpl in Hrun.
  - discriminate Hrun.
  - discriminate Hrun.
  - injection Hrun as <-. discriminate Hname.
Qed.

(** C3 (amended): the only check on the indices is the one of the feature
    look-up.  When every index of every triplet lies in [-N, N) the scorer
    returns a choice and a confidence vector for every triplet, repeated
    indices included and negative indices counted from the end; otherwise
    it fails with an [IndexError]. *)
Theorem get_predictions_index_check (features : Array) (triplets : list (Z * Z * Z)) :
  get_predictions features triplets
  = if forallb (all3 (in_range features)) triplets
    then Ok (map (choice_of features) triplets, map (probas_of features) triplets)
    else Raise Py.IndexError.
Proof. apply get_predictions_eq. Qed.

(** C10. The pair selected for a triplet is the first one of
    [(0,1), (0,2), (1,2)] whose similarity is maximal: every pair has at
    most its similarity and every earlier pair has strictly less.  The
    predicted odd-one-out is the one position outside that pair.  When the
    three similarities are equal, the predicted position is 2 and the
    recorded choice is true. *)
Theorem predict_first_maximal_pair (triplet : list Tensor) :
  let sims := compute_similarities triplet pairs in
  first_maximal_at sims (argmax sims)
  /\ (exists p, pairs !! argmax sims = Some p
        /\ forall ooo, not_in_pair p ooo <-> ooo = odd_position (argmax sims))
  /\ predict triplet
     = Ok (odd_position (argmax sims),
           bool_decide (odd_position (argmax sims) = 2%nat), softmax sims)
  /\ (nth 0 sims 0 = nth 1 sims 0 -> nth 1 sims 0 = nth 2 sims 0 ->
      argmax sims = 0%nat /\ predict triplet = Ok (2%nat, true, softmax sims)).
Proof.
  intros sims.
  assert (Hfirst : first_maximal_at sims (argmax sims)).
  { apply argmax_first_maximal. discriminate. }
  assert (Hlt : (argmax sims < 3)%nat) by apply argmax_similarities_lt.
  split; [exact Hfirst |]. split; [| split].
  - destruct (pairs !! argmax sims) as [p|] eqn:Hp.
    + exists p. split; [reflexivity |]. intros ooo. split.
      * apply not_in_pair_unique. exact Hp.
      * intros ->. apply odd_position_not_in_pair. exact Hp.
    + apply lookup_ge_None in Hp. change (length pairs) with 3%nat in Hp. lia.
  - rewrite predict_eq. fold sims. do 2 f_equal.
    destruct (Nat.eqb_spec (odd_position (argmax sims)) 2) as [E | E].
    + rewrite bool_decide_eq_true_2; auto.
    + rewrite bool_decide_eq_false_2; auto.
  - intros H01 H12.
    assert (H0 : argmax sims = 0%nat).
    { destruct Hfirst as [_ Hbefore].
      destruct (argmax sims) as [|[|[|idx]]] eqn:E; [reflexivity | | | lia].
      - specialize (Hbefore 0%nat ltac:(lia)). lra.
      - specialize (Hbefore 0%nat ltac:(lia)). lra. }
    split; [exact H0 |].
    rewrite predict_eq. fold sims. rewrite H0. reflexivity.
Qed.

Lemma predict_first_maximal_pair_witness :
  let triplet := stacked examples.constant_features examples.triplet in
  let sims := compute_similarities triplet pairs in
  nth 0 sims 0 = nth 1 sims 0 /\ nth 1 sims 0 = nth 2 sims 0
  /\ predict triplet = Ok (2%nat, true, softmax sims).
Proof.
  intros triplet sims.
  assert (H01 : nth 0 sims 0 = nth 1 sims 0) by reflexivity.
  assert (H12 : nth 1 sims 0 = nth 2 sims 0) by reflexivity.
  split; [exact H01 |]. split; [exact H12 |].
  destruct (predict_first_maximal_pair triplet) as (_ & _ & _ & Htie).
  destruct (Htie H01 H12) as [_ Hrun]. exact Hrun.
Defined.

End ScorerContract.


(* ===================================================================== *)
(** * Accuracy                                                            *)
(* ===================================================================== *)

Section AccuracyFacts.
Import main_eval scorer.
Local Open Scope Q_scope.

Lemma round_half_even_close (q : Q) :
  Qabs (inject_Z (round_half_even q) - q) <= 1 # 2.
Proof.
  unfold round_half_even.
  pose proof (Qfloor_le q) as Hlo. pose proof (Qlt_floor q) as Hhi.
  rewrite inject_Z_plus in Hhi. change (inject_Z 1) with 1 in Hhi.
  destruct (Qcompare_spec (q - inject_Z (Qfloor q)) (1 # 2)) as [E | E | E];
    [destruct (Z.even (Qfloor q)) | |];
    try rewrite inject_Z_plus; change (inject_Z 1) with 1;
    revert Hlo Hhi E; generalize (inject_Z (Qfloor q)); intros f Hlo Hhi E;
    apply Qabs_Qle_condition; split; lra.
Qed.

Lemma round_half_even_comp (q q' : Q) :
  q == q' -> round_half_even q = round_half_even q'.
Proof.
  intros H. unfold round_half_even.
  rewrite (Qfloor_comp _ _ H).
  assert (E : (q - inject_Z (Qfloor q') ?= 1 # 2) = (q' - inject_Z (Qfloor q') ?= 1 # 2)).
  { apply Qcompare_comp; [rewrite H |]; reflexivity. }
  rewrite E. reflexivity.
Qed.

Lemma round_close (q : Q) : rounded_4dp q (round q 4).
Proof.
  unfold round, rounded_4dp.
  change (Z.to_pos (10 ^ Z.of_nat 4)) with 10000%positive.
  set (z := round_half_even (q * inject_Z 10000)).
  split.
  - exists z. apply Qred_correct.
  - rewrite Qred_correct.
    pose proof (round_half_even_close (q * inject_Z 10000)) as H. fold z in H.
    apply Qabs_Qle_condition in H. destruct H as [H1 H2].
    assert (E : z # 10000 == inject_Z z * (1 # 10000)).
    { unfold Qeq, inject_Z. simpl. lia. }
    apply Qabs_Qle_condition. rewrite E.
    change (inject_Z 10000) with (10000 # 1) in *.
    revert H1 H2. generalize (inject_Z z). intros y H1 H2.
    split; lra.
Qed.

Lemma sum_all_true (choices : list bool) :
  all_correct choices = true -> sum choices = length choices.
Proof.
  induction choices as [|[|] l IH]; simpl; intros H; try discriminate; auto.
Qed.

Lemma sum_all_false (choices : list bool) :
  all_incorrect choices = true -> sum choices = 0%nat.
Proof.
  induction choices as [|[|] l IH]; simpl; intros H; try discriminate; auto.
Qed.

Lemma round_eq (q q' : Q) (n : nat) : q == q' -> round q n = round q' n.
Proof.
  intros H. unfold round.
  set (scale := inject_Z (Z.pos (Z.to_pos (10 ^ Z.of_nat n)))).
  rewrite (round_half_even_comp (q * scale) (q' * scale)); [reflexivity |].
  rewrite H. reflexivity.
Qed.

(** C8. For every non-empty correctness vector, [accuracy] returns the mean
    of the vector rounded to 4 decimal places; the result is exactly 1 when
    every entry is correct and exactly 0 when every entry is incorrect. *)
Theorem accuracy_mean_rounded (choices : list bool) :
  (0 < length choices)%nat ->
  exists acc,
    accuracy choices = Ok acc
    /\ rounded_4dp (mean_correct choices) acc
    /\ (all_correct choices = true -> acc = 1)
    /\ (all_incorrect choices = true -> acc = 0).
Proof.
  intros Hlen. unfold accuracy.
  destruct (length choices) as [|m] eqn:E; [lia |]. rewrite <- E.
  eexists. split; [reflexivity |]. split; [| split].
  - apply round_close.
  - intros Hall. rewrite (round_eq _ 1); [reflexivity |].
    rewrite (sum_all_true _ Hall). unfold Qeq. simpl. lia.
  - intros Hall. rewrite (round_eq _ 0); [reflexivity |].
    rewrite (sum_all_false _ Hall). unfold Qeq. simpl. lia.
Qed.

Lemma accuracy_mean_rounded_witness :
  (0 < length [true; false; true])%nat
  /\ exists acc, accuracy [true; false; true] = Ok acc
       /\ rounded_4dp (mean_correct [true; false; true]) acc.
Proof.
  assert (H : (0 < length [true; false; true])%nat) by (simpl; lia).
  split; [exact H |].
  destruct (accuracy_mean_rounded [true; false; true] H) as (acc & Hrun & Hround & _).
  exists acc. split; [exact Hrun | exact Hround].
Defined.

End AccuracyFacts.

(* ===================================================================== *)
(** * Entropy                                                             *)
(* ===================================================================== *)

Section EntropyFacts.
Import main_eval scorer.
Local Open Scope R_scope.

Lemma rsum_map_Permutation (f : R -> R) (p q : list R) :
  Permutation p q -> rsum (map f p) = rsum (map f q).
Proof.
  induction 1 as [| x p q _ IH | x y p | p q r _ IH1 _ IH2]; simpl.
  - reflexivity.
  - rewrite IH. reflexivity.
  - ring.
  - congruence.
Qed.

Lemma entropy_Permutation (p q : list R) :
  Permutation p q -> entropy p = entropy q.
Proof. intros H. unfold entropy. f_equal. apply rsum_map_Permutation. exact H. Qed.

Lemma entropy_shannon (p : list R) :
  Forall (fun x => 0 <= x) p -> entropy p = shannon_entropy p.
Proof.
  intros H. unfold entropy, shannon_entropy. f_equal.
  induction H as [| x p Hx _ IH]; simpl; [reflexivity |].
  rewrite IH. f_equal. unfold xlogx.
  destruct (Rlt_dec 0 x), (Req_dec_T x 0); try reflexivity; lra.
Qed.

(** [ln y <= y - 1] *)
Lemma ln_le_minus_1 (y : R) : 0 < y -> ln y <= y - 1.
Proof.
  intros Hy. pose proof (exp_ineq1_le (ln y)) as H.
  rewrite exp_ln in H by exact Hy. lra.
Qed.

Lemma term_lower (x : R) : 0 <= x <= 1 -> 0 <= - (if Rlt_dec 0 x then x * ln x else 0).
Proof.
  intros [H0 H1]. destruct (Rlt_dec 0 x) as [Hpos | _]; [| lra].
  pose proof (ln_le_minus_1 x Hpos). nra.
Qed.

Lemma term_upper (x : R) :
  0 <= x -> - (if Rlt_dec 0 x then x * ln x else 0) <= x * ln 3 + / 3 - x.
Proof.
  intros H0. destruct (Rlt_dec 0 x) as [Hpos | Hn].
  - assert (Hy : 0 < / (3 * x)) by (apply Rinv_0_lt_compat; lra).
    pose proof (ln_le_minus_1 _ Hy) as H.
    rewrite ln_Rinv in H by lra.
    rewrite ln_mult in H by lra.
    assert (E : x * (/ (3 * x)) = / 3) by (field; lra).
    assert (Hm : x * (- (ln 3 + ln x)) <= x * (/ (3 * x) - 1)).
    { apply Rmult_le_compat_l; lra. }
    rewrite Rmult_minus_distr_l, E in Hm. lra.
  - assert (x = 0) by lra. subst x. lra.
Qed.

Lemma entropy_bounds (p : list R) : confidences p -> 0 <= entropy p <= ln 3.
Proof.
  intros (Hlen & Hpos & Hsum).
  destruct p as [|a [|b [|c [|d p]]]]; try discriminate.
  inversion_clear Hpos as [| ? ? Ha Hpos']. inversion_clear Hpos' as [| ? ? Hb Hpos''].
  inversion_clear Hpos'' as [| ? ? Hc _].
  unfold rsum in Hsum. simpl in Hsum.
  unfold entropy, rsum. simpl.
  pose proof (term_lower a ltac:(lra)). pose proof (term_lower b ltac:(lra)).
  pose proof (term_lower c ltac:(lra)).
  pose proof (term_upper a Ha). pose proof (term_upper b Hb). pose proof (term_upper c Hc).
  assert (E : a * ln 3 + b * ln 3 + c * ln 3 = ln 3).
  { replace (a * ln 3 + b * ln 3 + c * ln 3) with ((a + (b + (c + 0))) * ln 3) by ring.
    rewrite Hsum. ring. }
  split; lra.
Qed.

(** C5. For every matrix of confidence vectors (three nonnegative numbers
    that sum to 1), [ventropy] returns for each row minus the sum of
    [p * log p] with [0 * log 0 = 0], a value between 0 and [log 3], and it
    returns the same values when the entries of each row are permuted. *)
Theorem ventropy_shannon (probabilities : list (list R)) :
  Forall confidences probabilities ->
  ventropy probabilities = map shannon_entropy probabilities
  /\ Forall (fun h => 0 <= h <= ln 3) (ventropy probabilities)
  /\ forall permuted,
       Forall2 (@Permutation R) probabilities permuted ->
       ventropy permuted = ventropy probabilities.
Proof.
  intros H. unfold ventropy. split; [| split].
  - induction H as [| p l (_ & Hp & _) _ IH]; simpl; [reflexivity |].
    rewrite IH, (entropy_shannon p Hp). reflexivity.
  - induction H as [| p l Hp _ IH]; simpl; constructor; [apply entropy_bounds; exact Hp | exact IH].
  - intros permuted HP. clear H.
    induction HP as [| p q l l' Hpq _ IH]; simpl; [reflexivity |].
    rewrite IH, (entropy_Permutation p q Hpq). reflexivity.
Qed.

Lemma ventropy_shannon_witness :
  Forall confidences [[/ 2; / 4; / 4]]
  /\ ventropy [[/ 2; / 4; / 4]] = map shannon_entropy [[/ 2; / 4; / 4]]
  /\ ventropy [[/ 4; / 2; / 4]] = ventropy [[/ 2; / 4; / 4]].
Proof.
  assert (H : Forall confidences [[/ 2; / 4; / 4]]).
  { constructor; [| constructor]. unfold confidences, rsum. simpl.
    split; [reflexivity |]. split; [| lra].
    repeat constructor; lra. }
  split; [exact H |].
  destruct (ventropy_shannon [[/ 2; / 4; / 4]] H) as (Heq & _ & Hperm).
  split; [exact Heq |].
  apply Hperm. constructor; [| constructor].
  apply perm_swap.
Defined.

End EntropyFacts.

(* ===================================================================== *)
(** * Decimal bounds on the exponential                                   *)
(* ===================================================================== *)

Section Bounds.
Import main_eval scorer bounds.
Local Open Scope R_scope.

Lemma scale_pos : 0 < IZR scale.
Proof. apply IZR_lt. reflexivity. Qed.

Lemma square_down_sound (n : nat) :
  forall (a : Z) (y : R),
    (0 <= a)%Z -> IZR a <= y * IZR scale ->
    (0 <= square_down n a)%Z /\ IZR (square_down n a) <= y ^ (2 ^ n) * IZR scale.
Proof.
  pose proof scale_pos as HS.
  induction n as [|n IH]; intros a y Ha Hy.
  - simpl. split; [exact Ha | lra].
  - cbn [square_down].
    assert (Hq : (0 <= a * a / scale)%Z) by (apply Z.div_pos; [nia | reflexivity]).
    assert (Hle : IZR (a * a / scale) <= (y * y) * IZR scale).
    { assert (Hz : (scale * (a * a / scale) <= a * a)%Z)
        by (apply Z.mul_div_le; reflexivity).
      apply IZR_le in Hz. rewrite !mult_IZR in Hz.
      assert (H0 : 0 <= IZR a) by (apply IZR_le; exact Ha).
      assert (H1 : IZR a * IZR a <= (y * IZR scale) * (y * IZR scale)) by nra.
      assert (H2 : IZR scale * IZR (a * a / scale) <= IZR scale * ((y * y) * IZR scale)) by nra.
      apply Rmult_le_reg_l with (r := IZR scale); [exact HS | exact H2]. }
    destruct (IH _ _ Hq Hle) as [Hpos Hbound].
    split; [exact Hpos |].
    replace (y ^ (2 ^ S n)) with ((y * y) ^ (2 ^ n)); [exact Hbound |].
    replace (y * y) with (y ^ 2) by ring.
    rewrite <- pow_mult. reflexivity.
Qed.

Lemma exp_mult_nat (y : R) (k : nat) : exp (INR k * y) = exp y ^ k.
Proof.
  induction k as [|k IH].
  - simpl. rewrite Rmult_0_l. apply exp_0.
  - rewrite S_INR, Rmult_plus_distr_r, Rmult_1_l, exp_plus, IH. simpl. ring.
Qed.

Lemma exp_below_sound (n : nat) (p : Z) (q : positive) :
  (0 <= 2 ^ Z.of_nat n * Zpos q + p)%Z ->
  IZR (exp_below n p q) / IZR scale <= exp (IZR p / IZR (Zpos q)).
Proof.
  intros Hnum. pose proof scale_pos as HS. unfold exp_below.
  set (N := (2 ^ Z.of_nat n)%Z).
  assert (HN : (0 < N)%Z) by (apply Z.pow_pos_nonneg; lia).
  assert (HNq : (0 < N * Zpos q)%Z) by lia.
  set (x := IZR p / IZR (Zpos q)).
  set (a := ((N * Zpos q + p) * scale / (N * Zpos q))%Z).
  assert (HNR : IZR N = INR (2 ^ n)).
  { unfold N. rewrite pow_INR. rewrite <- pow_IZR. reflexivity. }
  assert (HNpos : 0 < IZR N) by (apply IZR_lt; exact HN).
  assert (Hqpos : 0 < IZR (Zpos q)) by (apply IZR_lt; reflexivity).
  assert (Ha : (0 <= a)%Z).
  { apply Z.div_pos; [| exact HNq]. apply Z.mul_nonneg_nonneg; [exact Hnum | discriminate]. }
  assert (Hy : IZR a <= (1 + x / IZR N) * IZR scale).
  { assert (Hz : (N * Zpos q * a <= (N * Zpos q + p) * scale)%Z)
      by (apply Z.mul_div_le; exact HNq).
    apply IZR_le in Hz. rewrite !mult_IZR, plus_IZR, mult_IZR in Hz.
    apply Rmult_le_reg_l with (r := IZR N * IZR (Zpos q)); [nra |].
    replace (IZR N * IZR (Z.pos q) * ((1 + x / IZR N) * IZR scale))
      with ((IZR N * IZR (Z.pos q) + IZR p) * IZR scale);
      [exact Hz | unfold x; field; lra]. }
  destruct (square_down_sound n a _ Ha Hy) as [Hpos Hbound].
  assert (Hy0 : 0 <= 1 + x / IZR N).
  { assert (0 <= IZR a) by (apply IZR_le; exact Ha). nra. }
  assert (Hexp : (1 + x / IZR N) ^ (2 ^ n) <= exp x).
  { replace (exp x) with (exp (x / IZR N) ^ (2 ^ n)).
    - apply pow_incr. split; [exact Hy0 | apply exp_ineq1_le].
    - rewrite <- exp_mult_nat. f_equal. rewrite <- HNR. field. lra. }
  apply Rle_trans with ((1 + x / IZR N) ^ (2 ^ n)); [| exact Hexp].
  apply Rmult_le_reg_r with (r := IZR scale); [exact HS |].
  replace (IZR (square_down n a) / IZR scale * IZR scale) with (IZR (square_down n a))
    by (field; lra).
  exact Hbound.
Qed.

(** A fixed-point number above [exp (p / q)] is [scale ^ 2] divided by one
    below [exp (- p / q)]. *)
Lemma exp_above_sound (n : nat) (p : Z) (q : positive) :
  (0 <= 2 ^ Z.of_nat n * Zpos q - p)%Z ->
  (0 < exp_below n (- p) q)%Z ->
  exp (IZR p / IZR (Zpos q)) <= IZR scale / IZR (exp_below n (- p) q).
Proof.
  intros Hnum Hpos. pose proof scale_pos as HS.
  assert (H : IZR (exp_below n (- p) q) / IZR scale <= exp (IZR (- p) / IZR (Zpos q))).
  { apply exp_below_sound. lia. }
  replace (IZR (- p) / IZR (Z.pos q)) with (- (IZR p / IZR (Z.pos q))) in H
    by (rewrite opp_IZR; field; apply eq_IZR_contrapositive; discriminate).
  rewrite exp_Ropp in H.
  apply IZR_lt in Hpos.
  set (b := IZR (exp_below n (- p) q)) in *.
  set (e := exp (IZR p / IZR (Z.pos q))) in *.
  assert (He : 0 < e) by apply exp_pos.
  apply Rmult_le_reg_r with (r := b); [exact Hpos |].
  replace (IZR scale / b * b) with (IZR scale) by (field; lra).
  assert (H2 : b / IZR scale * (IZR scale * e) <= / e * (IZR scale * e)).
  { apply Rmult_le_compat_r; [nra | exact H]. }
  replace (b / IZR scale * (IZR scale * e)) with (e * b) in H2 by (field; lra).
  replace (/ e * (IZR scale * e)) with (IZR scale) in H2 by (field; lra).
  exact H2.
Qed.

Lemma exp_1_bounds : 2.71828 < exp 1 < 2.71829.
Proof.
  pose proof (exp_below_sound 20 1 1 ltac:(vm_compute; discriminate)) as Hlo.
  pose proof (exp_above_sound 20 1 1 ltac:(vm_compute; discriminate) ltac:(vm_compute; reflexivity)) as Hhi.
  replace (IZR 1 / IZR 1) with 1 in Hlo, Hhi by lra.
  let v := eval vm_compute in (exp_below 20 1 1) in change (exp_below 20 1 1) with v in Hlo.
  let v := eval vm_compute in (exp_below 20 (Z.opp 1) 1) in
    change (exp_below 20 (Z.opp 1) 1) with v in Hhi.
  let v := eval vm_compute in scale in change scale with v in Hlo, Hhi.
  split; lra.
Qed.


Lemma ln_exp_1_plus_2_bounds : 1.5514 < ln (exp 1 + 2) < 1.5515.
Proof.
  pose proof exp_1_bounds as [He1 He2].
  assert (Hpos : 0 < exp 1 + 2) by lra.
  pose proof (exp_below_sound 20 15515 10000 ltac:(vm_compute; discriminate)) as Hlo.
  pose proof (exp_above_sound 20 15514 10000 ltac:(vm_compute; discriminate)
                ltac:(vm_compute; reflexivity)) as Hhi.
  let v := eval vm_compute in (exp_below 20 15515 10000) in
    change (exp_below 20 15515 10000) with v in Hlo.
  let v := eval vm_compute in (exp_below 20 (Z.opp 15514) 10000) in
    change (exp_below 20 (Z.opp 15514) 10000) with v in Hhi.
  let v := eval vm_compute in scale in change scale with v in Hlo, Hhi.
  replace (15515 / 10000) with 1.5515 in Hlo by lra.
  replace (15514 / 10000) with 1.5514 in Hhi by lra.
  split; apply exp_lt_inv; rewrite exp_ln by exact Hpos; lra.
Qed.

Lemma agree_3dp_iff (x y : R) : agree_3dp x y <-> y - 0.0005 <= x <= y + 0.0005.
Proof.
  unfold agree_3dp, Rabs. destruct (Rcase_abs (x - y)); split; intros H; lra.
Qed.

Lemma softmax_example :
  softmax [1; 0; 0] = [exp 1 / (exp 1 + 2); 1 / (exp 1 + 2); 1 / (exp 1 + 2)].
Proof.
  unfold softmax, rsum. simpl. rewrite exp_0.
  replace (exp 1 + (1 + (1 + 0))) with (exp 1 + 2) by ring. reflexivity.
Qed.

Lemma entropy_example :
  entropy (softmax [1; 0; 0]) = ln (exp 1 + 2) - exp 1 / (exp 1 + 2).
Proof.
  pose proof exp_1_bounds as [He1 He2].
  assert (Hz : 0 < exp 1 + 2) by lra.
  assert (Hi : 0 < / (exp 1 + 2)) by (apply Rinv_0_lt_compat; exact Hz).
  rewrite softmax_example. unfold entropy, rsum. simpl.
  assert (H0 : 0 < exp 1 / (exp 1 + 2)) by (unfold Rdiv; nra).
  assert (H1 : 0 < 1 / (exp 1 + 2)) by (unfold Rdiv; nra).
  destruct (Rlt_dec 0 (exp 1 / (exp 1 + 2))) as [_ | N]; [| contradiction].
  destruct (Rlt_dec 0 (1 / (exp 1 + 2))) as [_ | N]; [| contradiction].
  assert (L0 : ln (exp 1 / (exp 1 + 2)) = 1 - ln (exp 1 + 2)).
  { unfold Rdiv. rewrite ln_mult by (try apply exp_pos; exact Hi).
    rewrite ln_exp, ln_Rinv by exact Hz. ring. }
  assert (L1 : ln (1 / (exp 1 + 2)) = - ln (exp 1 + 2)).
  { unfold Rdiv. rewrite Rmult_1_l. apply ln_Rinv. exact Hz. }
  rewrite L0, L1. field. lra.
Qed.

Lemma entropy_example_bounds : 0.9752 < entropy (softmax [1; 0; 0]) < 0.9754.
Proof.
  pose proof exp_1_bounds as [He1 He2].
  pose proof ln_exp_1_plus_2_bounds as [Hl1 Hl2].
  rewrite entropy_example.
  assert (Hz : 0 < exp 1 + 2) by lra.
  assert (Hp1 : 0.57611 < exp 1 / (exp 1 + 2)).
  { apply Rmult_lt_reg_r with (r := exp 1 + 2); [exact Hz |].
    replace (exp 1 / (exp 1 + 2) * (exp 1 + 2)) with (exp 1) by (field; lra). lra. }
  assert (Hp2 : exp 1 / (exp 1 + 2) < 0.57612).
  { apply Rmult_lt_reg_r with (r := exp 1 + 2); [exact Hz |].
    replace (exp 1 / (exp 1 + 2) * (exp 1 + 2)) with (exp 1) by (field; lra). lra. }
  split; lra.
Qed.
End Bounds.

(* ===================================================================== *)
(** * Cosine similarity                                                   *)
(* ===================================================================== *)

Section CosineFacts.
Import main_eval scorer.
Local Open Scope R_scope.

Lemma eps_pos : 0 < eps.
Proof. unfold eps. lra. Qed.

Lemma dot_comm (x y : Tensor) : dot x y = dot y x.
Proof.
  unfold dot, rsum. revert y.
  induction x as [|a x IH]; intros [|b y]; simpl; try reflexivity.
  rewrite IH. ring.
Qed.

Lemma dot_self_nonneg (x : Tensor) : 0 <= dot x x.
Proof.
  unfold dot, rsum. induction x as [|a x IH]; simpl; [lra | nra].
Qed.

Lemma norm_nonneg (x : Tensor) : 0 <= norm x.
Proof. apply sqrt_pos. Qed.

Lemma norm_square (x : Tensor) : norm x * norm x = dot x x.
Proof. apply sqrt_sqrt. apply dot_self_nonneg. Qed.

Lemma Rmax_eps_pos (r : R) : 0 < Rmax r eps.
Proof. pose proof (Rmax_r r eps). pose proof eps_pos. lra. Qed.

Lemma dot_map_div (n1 n2 : R) (x : Tensor) :
  n1 <> 0 -> n2 <> 0 ->
  forall y, dot (map (fun a => a / n1) x) (map (fun b => b / n2) y) = dot x y / (n1 * n2).
Proof.
  intros H1 H2. unfold dot, rsum.
  induction x as [|a x IH]; intros [|b y]; simpl; try (field; split; assumption).
  rewrite IH. field. split; assumption.
Qed.

(** The cosine similarity as one quotient. *)
Lemma cosine_similarity_eq (x y : Tensor) :
  cosine_similarity x y = dot x y / (Rmax (norm x) eps * Rmax (norm y) eps).
Proof.
  unfold cosine_similarity. cbv zeta.
  pose proof (Rmax_eps_pos (norm x)). pose proof (Rmax_eps_pos (norm y)).
  apply dot_map_div; lra.
Qed.

Lemma cosine_similarity_comm (x y : Tensor) :
  cosine_similarity x y = cosine_similarity y x.
Proof.
  rewrite !cosine_similarity_eq, (dot_comm x y), (Rmult_comm (Rmax (norm x) eps)).
  reflexivity.
Qed.

Lemma cosine_similarity_self (v : Tensor) :
  eps <= norm v -> cosine_similarity v v = 1.
Proof.
  intros H. rewrite cosine_similarity_eq.
  rewrite Rmax_left by exact H. rewrite norm_square.
  pose proof eps_pos. pose proof (norm_square v) as Hsq.
  assert (0 < dot v v) by nra. field. lra.
Qed.

Lemma residual_nonneg (t : R) (v w : Tensor) : 0 <= residual t v w.
Proof.
  unfold residual, rsum. revert w.
  induction v as [|a v IH]; intros [|b w]; simpl; try lra.
  specialize (IH w). pose proof (Rle_0_sqr (b - t * a)) as Hsq. unfold Rsqr in Hsq. lra.
Qed.

Lemma residual_expand (t : R) (v : Tensor) :
  forall w, length w = length v ->
    residual t v w = dot w w - 2 * t * dot v w + t * t * dot v v.
Proof.
  unfold residual, dot, rsum.
  induction v as [|a v IH]; intros [|b w] Hlen; simpl in *; try discriminate.
  - ring.
  - rewrite (IH w) by lia. ring.
Qed.

Lemma compute_similarities_3 (x0 x1 x2 : Tensor) :
  compute_similarities [x0; x1; x2] pairs
  = [cosine_similarity x0 x1; cosine_similarity x0 x2; cosine_similarity x1 x2].
Proof. reflexivity. Qed.

Lemma argmax_3 (a b c : R) :
  argmax [a; b; c]
  = if Rlt_dec a b then (if Rlt_dec b c then 2%nat else 1%nat)
    else (if Rlt_dec a c then 2%nat else 0%nat).
Proof.
  unfold argmax, argmax_from.
  destruct (Rlt_dec a b), (Rlt_dec b c), (Rlt_dec a c); reflexivity.
Qed.

Lemma norm_axis_example (t : R) : 0 <= t -> norm [t; 0] = t.
Proof.
  intros Ht. unfold norm, dot, rsum. simpl.
  replace (t * t + (0 * 0 + 0)) with (t * t) by ring.
  apply sqrt_square. exact Ht.
Qed.

Lemma cosine_similarity_parallel_example :
  cosine_similarity [1; 0] [2; 0] = 1 /\ cosine_similarity [1; 0] [1; 0] = 1.
Proof.
  split.
  - rewrite cosine_similarity_eq, !norm_axis_example by lra.
    rewrite !Rmax_left by (unfold eps; lra).
    unfold dot, rsum. simpl. field.
  - apply cosine_similarity_self. rewrite norm_axis_example by lra. unfold eps. lra.
Qed.

Lemma cosine_similarity_tiny_example :
  cosine_similarity [/ 1000000000; 0] [/ 1000000000; 0] = / 100
  /\ / 100 < cosine_similarity [/ 1000000000; 0] [1; 1].
Proof.
  assert (Hw : 0 <= norm [1; 1] <= 2).
  { split; [apply norm_nonneg |].
    unfold norm. apply Rle_trans with (sqrt (2 * 2)).
    - apply sqrt_le_1_alt. unfold dot, rsum. simpl. lra.
    - rewrite sqrt_square; lra. }
  rewrite !cosine_similarity_eq, !norm_axis_example by lra.
  rewrite !(Rmax_right (/ 1000000000)) by (unfold eps; lra).
  split.
  - unfold dot, rsum, eps. simpl. field.
  - pose proof (Rmax_eps_pos (norm [1; 1])) as HM.
    assert (HM2 : Rmax (norm [1; 1]) eps <= 2).
    { apply Rmax_lub; [tauto | unfold eps; lra]. }
    set (M := Rmax (norm [1; 1]) eps) in *.
    replace (dot [/ 1000000000; 0] [1; 1]) with (/ 1000000000)
      by (unfold dot, rsum; simpl; ring).
    apply Rmult_lt_reg_r with (r := eps * M); [unfold eps in *; nra |].
    replace (/ 1000000000 / (eps * M) * (eps * M)) with (/ 1000000000)
      by (unfold eps; field; lra).
    unfold eps. lra.
Qed.

(** C7 (as stated): whenever two positions of a triplet hold identical
    vectors and the third a different one, the third is predicted.  With
    rows [(1,0)], [(2,0)], [(1,0)] the three cosine similarities are all 1,
    the first pair is selected, and position 2 is predicted although the
    different vector is at position 1.  With rows [(1e-9,0)], [(1e-9,0)],
    [(1,1)] the identical pair has similarity [0.01] because its norms are
    clamped at [eps], the pair (0,2) has a similarity above [0.05] and is
    selected, and position 1 is predicted instead of position 2. *)
Lemma identical_pair_counterexamples :
  ~ identical_pair_predicts (stacked examples.parallel_features examples.triplet) 0 2 1
  /\ ~ identical_pair_predicts (stacked examples.tiny_features examples.triplet) 0 1 2.
Proof.
  split; intros H.
  2: { destruct H as [probas Hrun].
       - unfold arrangement. lia.
       - reflexivity.
       - intros E. injection E as E _. lra.
       - rewrite predict_eq in Hrun.
         change (stacked examples.tiny_features examples.triplet)
           with [[/ 1000000000; 0]; [/ 1000000000; 0]; [1; 1]] in Hrun.
         rewrite compute_similarities_3, argmax_3 in Hrun.
         destruct cosine_similarity_tiny_example as [Evv Evw].
         rewrite Evv in Hrun.
         set (s := cosine_similarity [/ 1000000000; 0] [1; 1]) in *.
         destruct (Rlt_dec (/ 100) s) as [_ | Hn]; [| lra].
         destruct (Rlt_dec s s) as [Hlt | _]; [lra |].
         discriminate Hrun. }
  destruct H as [probas Hrun].
  - unfold arrangement. lia.
  - reflexivity.
  - intros E. injection E as E. lra.
  - rewrite predict_eq in Hrun.
    change (stacked examples.parallel_features examples.triplet)
      with [[1; 0]; [2; 0]; [1; 0]] in Hrun.
    rewrite compute_similarities_3, argmax_3 in Hrun.
    destruct cosine_similarity_parallel_example as [E12 E11].
    rewrite (cosine_similarity_comm [2; 0] [1; 0]), E12, E11 in Hrun.
    destruct (Rlt_dec 1 1) as [Hlt | _]; [lra |].
    discriminate Hrun.
Qed.

(** C7 (amended): when two positions [a], [b] of a triplet hold the same
    vector [v], and the similarity computed for that pair is strictly
    greater than the similarity computed between [v] and the vector [w] at
    the third position [c], the predicted odd-one-out is [c], and the
    recorded choice is true exactly when [c] is position 2. *)
Theorem identical_pair_odd_one_out (x0 x1 x2 v w : Tensor) (a b c : nat) :
  arrangement a b c ->
  row [x0; x1; x2] a = v -> row [x0; x1; x2] b = v -> row [x0; x1; x2] c = w ->
  cosine_similarity v w < cosine_similarity v v ->
  predict [x0; x1; x2]
  = Ok (c, Nat.eqb c 2, softmax (compute_similarities [x0; x1; x2] pairs)).
Proof.
  intros Harr Ha Hb Hc Hvw.
  pose proof Hvw as Hwv. rewrite (cosine_similarity_comm v w) in Hwv.
  rewrite predict_eq, compute_similarities_3, argmax_3.
  destruct Harr as (Ha3 & Hb3 & Hc3 & Hab & Hac & Hbc).
  destruct a as [|[|[|a]]], b as [|[|[|b]]], c as [|[|[|c]]]; try lia;
    unfold row in Ha, Hb, Hc; simpl in Ha, Hb, Hc; subst;
    repeat match goal with
           | |- context [Rlt_dec ?x ?y] => destruct (Rlt_dec x y); try lra
           end;
    reflexivity.
Qed.

Lemma cosine_similarity_orthogonal_example : cosine_similarity [1; 0] [0; 1] = 0.
Proof.
  rewrite cosine_similarity_eq. replace (dot [1; 0] [0; 1]) with 0.
  - unfold Rdiv. apply Rmult_0_l.
  - unfold dot, rsum. simpl. ring.
Qed.

Lemma identical_pair_odd_one_out_witness :
  arrangement 0 2 1
  /\ cosine_similarity [1; 0] [0; 1] < cosine_similarity [1; 0] [1; 0]
  /\ predict [[1; 0]; [0; 1]; [1; 0]]
     = Ok (1%nat, false, softmax (compute_similarities [[1; 0]; [0; 1]; [1; 0]] pairs)).
Proof.
  assert (Harr : arrangement 0 2 1) by (unfold arrangement; lia).
  assert (Hlt : cosine_similarity [1; 0] [0; 1] < cosine_similarity [1; 0] [1; 0]).
  { rewrite cosine_similarity_orthogonal_example.
    rewrite (proj2 cosine_similarity_parallel_example). lra. }
  split; [exact Harr |]. split; [exact Hlt |].
  exact (identical_pair_odd_one_out [1; 0] [0; 1] [1; 0] [1; 0] [0; 1] 0 2 1
           Harr eq_refl eq_refl eq_refl Hlt).
Defined.

Lemma similarities_example :
  similarities_of examples.features examples.triplet = [1; 0; 0].
Proof.
  change (similarities_of examples.features examples.triplet)
    with (compute_similarities [[1; 0]; [1; 0]; [0; 1]] pairs).
  rewrite compute_similarities_3.
  destruct cosine_similarity_parallel_example as [_ E11].
  rewrite E11, cosine_similarity_orthogonal_example. reflexivity.
Qed.

Lemma argmax_example : argmax [1; 0; 0] = 0%nat.
Proof.
  rewrite argmax_3.
  destruct (Rlt_dec 1 0) as [H | _]; [lra | reflexivity].
Qed.

(** C6 (as stated): on the worked example the entropy of the confidences
    is 0.976 to three decimals.  It is not: it lies below 0.9754. *)
Lemma worked_example_entropy_not_0976 :
  ~ (exists probas,
       get_predictions examples.features [examples.triplet] = Ok ([true], probas)
       /\ Forall2 agree_3dp (ventropy probas) [0.976]).
Proof.
  intros (probas & Hrun & Hent).
  rewrite get_predictions_eq in Hrun. simpl in Hrun.
  injection Hrun as _ <-.
  unfold probas_of in Hent. rewrite similarities_example in Hent.
  unfold ventropy in Hent. simpl in Hent.
  inversion_clear Hent as [| ? ? ? ? Hh _].
  apply agree_3dp_iff in Hh.
  pose proof entropy_example_bounds. lra.
Qed.

(** C6 (amended): on [F = [[1,0],[1,0],[0,1]]] with the single triplet
    [(0,1,2)] the cosine similarities are [(1, 0, 0)], the pair (0,1) is
    selected, position 2 is predicted and the choice is recorded as true;
    the softmax confidences are [(0.576, 0.212, 0.212)] to three decimals
    and their entropy, [log (e + 2) - e / (e + 2)], is 0.975 to three
    decimals. *)
Theorem worked_example :
  let sims := similarities_of examples.features examples.triplet in
  sims = [1; 0; 0]
  /\ pairs !! argmax sims = Some (0, 1)%nat
  /\ predict (stacked examples.features examples.triplet) = Ok (2%nat, true, softmax sims)
  /\ get_predictions examples.features [examples.triplet] = Ok ([true], [softmax sims])
  /\ Forall2 agree_3dp (softmax sims) [0.576; 0.212; 0.212]
  /\ Forall2 agree_3dp (ventropy [softmax sims]) [0.975]
  /\ entropy (softmax sims) = ln (exp 1 + 2) - exp 1 / (exp 1 + 2)
  /\ 0.9752 < entropy (softmax sims) < 0.9754.
Proof.
  intros sims.
  assert (Hs : sims = [1; 0; 0]) by apply similarities_example.
  pose proof exp_1_bounds as [He1 He2].
  assert (Hz : 0 < exp 1 + 2) by lra.
  split; [exact Hs |]. split; [| split; [| split; [| split; [| split; [| split]]]]].
  - rewrite Hs, argmax_example. reflexivity.
  - rewrite predict_eq.
    change (compute_similarities (stacked examples.features examples.triplet) pairs)
      with sims.
    rewrite Hs, argmax_example. reflexivity.
  - rewrite get_predictions_eq. simpl. unfold choice_of, probas_of. fold sims.
    rewrite Hs, argmax_example. reflexivity.
  - rewrite Hs, softmax_example.
    assert (Hp0 : 0.5760 <= exp 1 / (exp 1 + 2) <= 0.5762).
    { split.
      - apply Rmult_le_reg_r with (r := exp 1 + 2); [exact Hz |].
        replace (exp 1 / (exp 1 + 2) * (exp 1 + 2)) with (exp 1) by (field; lra). lra.
      - apply Rmult_le_reg_r with (r := exp 1 + 2); [exact Hz |].
        replace (exp 1 / (exp 1 + 2) * (exp 1 + 2)) with (exp 1) by (field; lra). lra. }
    assert (Hp1 : 0.2119 <= 1 / (exp 1 + 2) <= 0.2120).
    { split.
      - apply Rmult_le_reg_r with (r := exp 1 + 2); [exact Hz |].
        replace (1 / (exp 1 + 2) * (exp 1 + 2)) with 1 by (field; lra). lra.
      - apply Rmult_le_reg_r with (r := exp 1 + 2); [exact Hz |].
        replace (1 / (exp 1 + 2) * (exp 1 + 2)) with 1 by (field; lra). lra. }
    repeat (constructor; [apply agree_3dp_iff; lra |]). constructor.
  - rewrite Hs. unfold ventropy. simpl.
    constructor; [| constructor].
    apply agree_3dp_iff. pose proof entropy_example_bounds. lra.
  - rewrite Hs. apply entropy_example.
  - rewrite Hs. apply entropy_example_bounds.
Qed.

End CosineFacts.

(* ===================================================================== *)
(** * The configurable scorer (main_layer_eval.py)                        *)
(* ===================================================================== *)

Section LayerEvalFacts.
Import main_eval scorer.
Local Open Scope R_scope.






End LayerEvalFacts.

(* ===================================================================== *)
(** * The evaluation loop over the models (main_model_sim_eval.py)        *)
(* ===================================================================== *)

Section ModelSimEvalFacts.
Import main_model_sim_eval.

Context {Features Dataset Stat : Type}.
Variable get_family_name : string -> Py.result string.
Variable extract_features :
  string -> string -> option (list (string * string)) -> string -> string ->
  Py.result (Dataset * Features).
Variable apply_transform : Features -> Features -> Features -> string -> Py.result Features.
Variable perform_rsa : Dataset -> string -> Features -> Py.result (gmap string Stat).
Variable args : Args.
Variable model_cfg : ModelCfg.
Variable things_features : gmap string (gmap string (gmap string Features)).
Variable transforms : gmap string (gmap string (gmap string Features)).

Local Abbreviation run_step :=
  (step get_family_name extract_features apply_transform perform_rsa args model_cfg
     things_features transforms).
Local Abbreviation run_loop :=
  (loop get_family_name extract_features apply_transform perform_rsa args model_cfg
     things_features transforms).

(** A dictionary look-up fails with [KeyError] only. *)
Lemma dict_get3_cases {V : Type} (d : gmap string (gmap string (gmap string V)))
    (a b c : string) :
  (exists v, dict_get3 d a b c = Ok v) \/ dict_get3 d a b c = Raise Py.KeyError.
Proof.
  unfold dict_get3, dict_get.
  destruct (d !! a) as [da|]; simpl; [| right; reflexivity].
  destruct (da !! b) as [db|]; simpl; [| right; reflexivity].
  destruct (db !! c) as [v|]; simpl; [left; eauto | right; reflexivity].
Qed.

Lemma transform_features_missing (model_name source : string) (features : Features) :
  use_transforms args = true ->
  dict_get3 transforms source model_name (module args) = Raise Py.KeyError
  \/ dict_get3 things_features source model_name (module args) = Raise Py.KeyError ->
  exists message,
    transform_features apply_transform args things_features transforms
      model_name source features = Ok (Continue message)
    /\ (message = missing_transform model_name \/ message = missing_embedding model_name).
Proof.
  intros Huse Hmiss. unfold transform_features. rewrite Huse.
  destruct (dict_get3_cases transforms source model_name (module args)) as [[t Ht] | Ht];
    rewrite Ht; simpl.
  - destruct Hmiss as [Hm | Hm]; [congruence |].
    rewrite Hm. simpl. eexists. split; [reflexivity | right; reflexivity].
  - eexists. split; [reflexivity | left; reflexivity].
Qed.

(** C9. With [--use_transforms], when the extraction of a model's features
    has succeeded and the look-up of its transformation matrix or of its
    THINGS embedding matrix raises [KeyError], the iteration ends normally
    with one more warning, which names the model, and with the result
    records and the stored features unchanged; the loop goes on with the
    remaining models from that state. *)
Theorem evaluate_skips_model_without_transform
    (st : state) (i : nat) (model_name source : string)
    (rest : list (nat * (string * string)))
    (np : string * option (list (string * string))) (family_name module_name : string)
    (df : Dataset * Features) :
  use_transforms args = true ->
  model_parameters model_name = Ok np ->
  get_family_name model_name = Ok family_name ->
  list_get (modules model_cfg) i = Ok module_name ->
  extract_features (fst np) source (snd np) model_name module_name = Ok df ->
  dict_get3 transforms source model_name (module args) = Raise Py.KeyError
  \/ dict_get3 things_features source model_name (module args) = Raise Py.KeyError ->
  exists message,
    (message = missing_transform model_name \/ message = missing_embedding model_name)
    /\ run_step st i model_name source
       = Ok {| results := results st;
               model_features := model_features st;
               warnings := warnings st ++ [message] |}
    /\ run_loop ((i, (model_name, source)) :: rest) st
       = run_loop rest {| results := results st;
                          model_features := model_features st;
                          warnings := warnings st ++ [message] |}.
Proof.
  intros Huse Hnp Hfam Hmod Hext Hmiss.
  destruct (transform_features_missing model_name source (snd df) Huse Hmiss)
    as (message & Htf & Hmsg).
  assert (Hstep : run_step st i model_name source = Ok (warn message st)).
  { unfold step. rewrite Hnp. simpl. rewrite Hfam. simpl. rewrite Hmod. simpl.
    rewrite Hext. simpl. rewrite Htf. reflexivity. }
  exists message. split; [exact Hmsg |]. split; [exact Hstep |].
  simpl. rewrite Hstep. reflexivity.
Qed.

End ModelSimEvalFacts.

Lemma evaluate_skips_model_without_transform_witness :
  exists message,
    main_model_sim_eval.evaluate examples.loop_family examples.loop_extract
      examples.loop_transform examples.loop_rsa examples.loop_args examples.loop_cfg ∅ ∅
    = Ok {| main_model_sim_eval.results := [];
            main_model_sim_eval.model_features := ∅;
            main_model_sim_eval.warnings := [message] |}.
Proof.
  assert (Hmiss :
    main_model_sim_eval.dict_get3 (V := nat) ∅ "torchvision" "resnet18"
      (main_model_sim_eval.module examples.loop_args) = Raise Py.KeyError
    \/ main_model_sim_eval.dict_get3 (V := nat) ∅ "torchvision" "resnet18"
         (main_model_sim_eval.module examples.loop_args) = Raise Py.KeyError)
    by (left; reflexivity).
  destruct (evaluate_skips_model_without_transform
              examples.loop_family examples.loop_extract examples.loop_transform
              examples.loop_rsa examples.loop_args examples.loop_cfg ∅ ∅
              main_model_sim_eval.initial 0 "resnet18" "torchvision" []
              ("resnet18"%string, None) "ResNet" "avgpool" (tt, 0%nat)
              eq_refl eq_refl eq_refl eq_refl eq_refl Hmiss)
    as (message & _ & _ & Hloop).
  exists message. exact Hloop.
Defined.

(* ===================================================================== *)
(** * Further properties of the scorer (main_eval.py)                     *)
(* ===================================================================== *)

Section SoftmaxFacts.
Import main_eval scorer.
Local Open Scope R_scope.

Lemma rsum_exp_pos (x : list R) : x <> [] -> 0 < rsum (map exp x).
Proof.
  destruct x as [|a x]; [congruence | intros _].
  assert (H : forall l, 0 <= rsum (map exp l)).
  { induction l as [|b l IH]; simpl; [lra |]. pose proof (exp_pos b). lra. }
  simpl. pose proof (exp_pos a). specialize (H x). lra.
Qed.

Lemma rsum_map_div (z : R) (l : list R) :
  rsum (map (fun v => v / z) l) = rsum l / z.
Proof.
  induction l as [|a l IH]; simpl.
  - unfold Rdiv. ring.
  - rewrite IH. unfold Rdiv. ring.
Qed.

Lemma softmax_length (x : list R) : length (softmax x) = length x.
Proof. unfold softmax. apply length_map. Qed.

Lemma softmax_rsum (x : list R) : x <> [] -> rsum (softmax x) = 1.
Proof.
  intros Hx. unfold softmax.
  pose proof (rsum_exp_pos x Hx) as Hz.
  set (z := rsum (map exp x)) in *.
  replace (map (fun xi => exp xi / z) x) with (map (fun v => v / z) (map exp x))
    by (rewrite map_map; reflexivity).
  rewrite rsum_map_div. fold z. field. lra.
Qed.

Lemma softmax_pos (x : list R) : Forall (fun p => 0 < p) (softmax x).
Proof.
  destruct x as [|a x]; [constructor |].
  assert (Hz : 0 < rsum (map exp (a :: x))) by (apply rsum_exp_pos; discriminate).
  unfold softmax. set (z := rsum (map exp (a :: x))) in *.
  apply List.Forall_forall. intros p Hp. apply in_map_iff in Hp as (xi & <- & _).
  apply Rdiv_lt_0_compat; [apply exp_pos | exact Hz].
Qed.

Lemma rsum_pos_upper (l : list R) :
  Forall (fun p => 0 < p) l -> Forall (fun p => p <= rsum l) l.
Proof.
  induction 1 as [|p l Hp Hl IH]; constructor; simpl.
  - assert (0 <= rsum l).
    { clear IH. induction Hl as [|q l Hq _ IH]; simpl; lra. }
    lra.
  - eapply List.Forall_impl; [| exact IH]. simpl. intros q Hq. lra.
Qed.

(** X1. [softmax] turns every non-empty list of similarities into a
    probability distribution of the same length: every entry lies in
    (0, 1] and the entries sum to 1. *)
Theorem softmax_distribution (x : list R) :
  x <> [] ->
  length (softmax x) = length x
  /\ Forall (fun p => 0 < p <= 1) (softmax x)
  /\ rsum (softmax x) = 1.
Proof.
  intros Hx. split; [apply softmax_length |]. split; [| apply softmax_rsum; exact Hx].
  pose proof (softmax_pos x) as Hpos. pose proof (softmax_rsum x Hx) as Hsum.
  pose proof (rsum_pos_upper _ Hpos) as Hle. rewrite Hsum in Hle.
  rewrite List.Forall_forall in *. intros p Hp. split; auto.
Qed.

Lemma softmax_distribution_witness :
  [1; 0; 0] <> []
  /\ length (softmax [1; 0; 0]) = 3%nat
  /\ rsum (softmax [1; 0; 0]) = 1.
Proof.
  assert (H : [1; 0; 0] <> []) by discriminate.
  split; [exact H |].
  destruct (softmax_distribution [1; 0; 0] H) as (Hlen & _ & Hsum).
  split; [exact Hlen | exact Hsum].
Defined.

Lemma argmax_from_map (f : R -> R) (l : list R) :
  (forall a b, a < b <-> f a < f b) ->
  forall best bestv i,
    argmax_from best (f bestv) i (map f l) = argmax_from best bestv i l.
Proof.
  intros Hf. induction l as [|x l IH]; intros best bestv i; simpl; [reflexivity |].
  destruct (Rlt_dec (f bestv) (f x)) as [H | H], (Rlt_dec bestv x) as [H' | H'].
  - apply IH.
  - exfalso. apply H'. apply (proj2 (Hf bestv x)). exact H.
  - exfalso. apply H. apply (proj1 (Hf bestv x)). exact H'.
  - apply IH.
Qed.

(** X2. The confidences rank the pairs as the similarities do: the first
    largest confidence is at the position of the first largest similarity,
    that of the selected pair. *)
Theorem argmax_softmax (x : list R) : argmax (softmax x) = argmax x.
Proof.
  destruct x as [|a x]; [reflexivity |].
  assert (Hz : 0 < rsum (map exp (a :: x))) by (apply rsum_exp_pos; discriminate).
  unfold softmax. set (z := rsum (map exp (a :: x))) in *.
  cbn [map argmax].
  apply (argmax_from_map (fun xi => exp xi / z)).
  intros u v. split.
  - intros Huv. apply Rmult_lt_compat_r; [apply Rinv_0_lt_compat; exact Hz |].
    apply exp_increasing. exact Huv.
  - intros H. apply exp_lt_inv.
    apply Rmult_lt_reg_r with (r := / z); [apply Rinv_0_lt_compat; exact Hz | exact H].
Qed.

End SoftmaxFacts.

Section ScorerOutputFacts.
Import main_eval scorer.
Local Open Scope R_scope.

Lemma probas_of_confidences (features : Array) (t : Z * Z * Z) :
  confidences (probas_of features t).
Proof.
  unfold probas_of.
  assert (Hne : similarities_of features t <> []) by discriminate.
  split; [rewrite softmax_length; reflexivity |].
  split; [| apply softmax_rsum; exact Hne].
  eapply List.Forall_impl; [| apply softmax_pos]. simpl. intros p Hp. lra.
Qed.

Lemma probas_of_entries (features : Array) (t : Z * Z * Z) :
  Forall (fun x => 0 < x < 1) (probas_of features t).
Proof.
  destruct (probas_of_confidences features t) as (Hlen & _ & Hsum).
  pose proof (softmax_pos (similarities_of features t)) as Hpos.
  fold (probas_of features t) in Hpos.
  destruct (probas_of features t) as [|a [|b [|c [|d p]]]]; try discriminate.
  inversion Hpos as [| ? ? Ha Hpos']. inversion Hpos' as [| ? ? Hb Hpos''].
  inversion Hpos'' as [| ? ? Hc _]. subst.
  unfold rsum in Hsum. simpl in Hsum.
  repeat (constructor; [lra |]). constructor.
Qed.

Lemma entropy_pos (p : list R) :
  confidences p -> Forall (fun x => 0 < x) p -> 0 < entropy p.
Proof.
  intros (Hlen & _ & Hsum) Hpos.
  destruct p as [|a [|b [|c [|d p]]]]; try discriminate.
  inversion_clear Hpos as [| ? ? Ha Hpos']. inversion_clear Hpos' as [| ? ? Hb Hpos''].
  inversion_clear Hpos'' as [| ? ? Hc _].
  unfold rsum in Hsum. simpl in Hsum.
  unfold entropy, rsum. simpl.
  destruct (Rlt_dec 0 a) as [_ | N]; [| contradiction].
  destruct (Rlt_dec 0 b) as [_ | N]; [| contradiction].
  destruct (Rlt_dec 0 c) as [_ | N]; [| contradiction].
  pose proof (ln_le_minus_1 a Ha). pose proof (ln_le_minus_1 b Hb).
  pose proof (ln_le_minus_1 c Hc).
  assert (a * ln a < 0) by nra. assert (b * ln b < 0) by nra. assert (c * ln c < 0) by nra.
  lra.
Qed.

Lemma ventropy_probas_of_range (features : Array) (triplets : list (Z * Z * Z)) :
  Forall (fun h => 0 < h <= ln 3) (ventropy (map (probas_of features) triplets)).
Proof.
  unfold ventropy. apply List.Forall_forall. intros h Hh.
  apply in_map_iff in Hh as (p & <- & Hp). apply in_map_iff in Hp as (t & <- & _).
  pose proof (probas_of_confidences features t) as Hc.
  split; [| apply entropy_bounds; exact Hc].
  apply entropy_pos; [exact Hc | apply softmax_pos].
Qed.

(** X3. Whatever the feature matrix and the triplets, [get_predictions]
    either fails with the [IndexError] of the feature look-up or returns one
    choice and one confidence vector per triplet; every confidence vector
    has three entries strictly between 0 and 1 that sum to 1, and the
    entropy that [ventropy] computes from it lies in (0, log 3]. *)
Theorem get_predictions_output (features : Array) (triplets : list (Z * Z * Z)) :
  match get_predictions features triplets with
  | Ok (choices, probas) =>
      length choices = length triplets
      /\ length probas = length triplets
      /\ Forall (fun p => length p = 3%nat /\ Forall (fun x => 0 < x < 1) p /\ rsum p = 1)
                probas
      /\ Forall (fun h => 0 < h <= ln 3) (ventropy probas)
  | Raise e => e = Py.IndexError
  end.
Proof.
  rewrite get_predictions_eq.
  destruct (forallb (all3 (in_range features)) triplets); [| reflexivity].
  rewrite !length_map. split; [reflexivity |]. split; [reflexivity |].
  split; [| apply ventropy_probas_of_range].
  apply List.Forall_forall. intros p Hp. apply in_map_iff in Hp as (t & <- & _).
  destruct (probas_of_confidences features t) as (Hlen & _ & Hsum).
  split; [exact Hlen |]. split; [apply probas_of_entries | exact Hsum].
Qed.

End ScorerOutputFacts.
Section CosineBounds.
Import main_eval scorer.
Local Open Scope R_scope.

(** Cauchy-Schwarz: [(v.w)^2 <= (v.v) (w.w)]. *)
Lemma dot_square_le (v w : Tensor) :
  length w = length v -> dot v w * dot v w <= dot v v * dot w w.
Proof.
  intros Hlen.
  pose proof (dot_self_nonneg v) as Hv. pose proof (dot_self_nonneg w) as Hw.
  set (d := dot v w).
  destruct (Req_dec_T (dot v v) 0) as [Hz | Hnz].
  - destruct (Req_dec_T d 0) as [Hd | Hd]; [rewrite Hd, Hz; lra |].
    exfalso.
    pose proof (residual_nonneg ((dot w w + 1) / (2 * d)) v w) as H.
    rewrite residual_expand in H by exact Hlen. fold d in H. rewrite Hz in H.
    replace (dot w w - 2 * ((dot w w + 1) / (2 * d)) * d
             + (dot w w + 1) / (2 * d) * ((dot w w + 1) / (2 * d)) * 0)
      with (- 1) in H by (field; exact Hd).
    lra.
  - assert (Hpos : 0 < dot v v) by lra.
    pose proof (residual_nonneg (d / dot v v) v w) as H.
    rewrite residual_expand in H by exact Hlen. fold d in H.
    replace (dot w w - 2 * (d / dot v v) * d + d / dot v v * (d / dot v v) * dot v v)
      with ((dot v v * dot w w - d * d) / dot v v) in H by (field; lra).
    assert (H2 : 0 <= (dot v v * dot w w - d * d) / dot v v * dot v v)
      by (apply Rmult_le_pos; lra).
    replace ((dot v v * dot w w - d * d) / dot v v * dot v v)
      with (dot v v * dot w w - d * d) in H2 by (field; lra).
    lra.
Qed.

Lemma dot_abs_le (v w : Tensor) :
  length w = length v -> - (norm v * norm w) <= dot v w <= norm v * norm w.
Proof.
  intros Hlen. pose proof (dot_square_le v w Hlen) as H.
  rewrite <- (norm_square v), <- (norm_square w) in H.
  pose proof (norm_nonneg v). pose proof (norm_nonneg w).
  assert (HP : 0 <= norm v * norm w) by (apply Rmult_le_pos; assumption).
  set (P := norm v * norm w) in *. set (d := dot v w) in *.
  assert (H2 : d * d <= P * P) by (unfold P; lra).
  split; nra.
Qed.

(** X4. For vectors of the same length the cosine similarity lies between
    -1 and 1, whatever their norms (the clamp of the norms at [eps] only
    moves it towards 0). *)
Theorem cosine_similarity_range (x1 x2 : Tensor) :
  length x1 = length x2 -> - 1 <= cosine_similarity x1 x2 <= 1.
Proof.
  intros Hlen. rewrite cosine_similarity_eq.
  pose proof (dot_abs_le x1 x2 (eq_sym Hlen)) as [Hlo Hhi].
  pose proof (norm_nonneg x1) as H1. pose proof (norm_nonneg x2) as H2.
  pose proof (Rmax_eps_pos (norm x1)) as HM1. pose proof (Rmax_eps_pos (norm x2)) as HM2.
  pose proof (Rmax_l (norm x1) eps) as HP1. pose proof (Rmax_l (norm x2) eps) as HP2.
  set (M1 := Rmax (norm x1) eps) in *. set (M2 := Rmax (norm x2) eps) in *.
  assert (HM : 0 < M1 * M2) by (apply Rmult_lt_0_compat; assumption).
  assert (HP : norm x1 * norm x2 <= M1 * M2) by (apply Rmult_le_compat; assumption).
  split.
  - apply Rmult_le_reg_r with (r := M1 * M2); [exact HM |].
    replace (dot x1 x2 / (M1 * M2) * (M1 * M2)) with (dot x1 x2) by (field; lra). lra.
  - apply Rmult_le_reg_r with (r := M1 * M2); [exact HM |].
    replace (dot x1 x2 / (M1 * M2) * (M1 * M2)) with (dot x1 x2) by (field; lra). lra.
Qed.

Lemma cosine_similarity_range_witness :
  length [/ 1000000000; 0] = length [1; 1]
  /\ - 1 <= cosine_similarity [/ 1000000000; 0] [1; 1] <= 1.
Proof.
  split; [reflexivity |].
  exact (cosine_similarity_range [/ 1000000000; 0] [1; 1] eq_refl).
Defined.

(** X5. Exchanging the first two indices of a triplet changes neither the
    recorded choice nor the entropy: the confidences are the same up to
    their order. *)
Theorem get_predictions_swap (features : Array) (i j k : Z)
    (choice : bool) (p : list R) :
  get_predictions features [(i, j, k)] = Ok ([choice], [p]) ->
  exists p',
    get_predictions features [(j, i, k)] = Ok ([choice], [p'])
    /\ Permutation p p'
    /\ entropy p' = entropy p.
Proof.
  rewrite !get_predictions_eq. cbn [forallb].
  unfold all3. cbn [fst snd].
  destruct (in_range features i) eqn:Hi, (in_range features j) eqn:Hj,
    (in_range features k) eqn:Hk; try discriminate.
  cbn [andb map]. intros H. injection H as <- <-.
  unfold choice_of, probas_of, similarities_of, stacked. cbn [fst snd].
  rewrite !compute_similarities_3.
  rewrite (cosine_similarity_comm (item features j) (item features i)).
  set (a := cosine_similarity (item features i) (item features j)).
  set (b := cosine_similarity (item features i) (item features k)).
  set (c := cosine_similarity (item features j) (item features k)).
  exists (softmax [a; c; b]).
  assert (HP : Permutation (softmax [a; b; c]) (softmax [a; c; b])).
  { unfold softmax, rsum. cbn [map fold_right].
    replace (exp a + (exp c + (exp b + 0))) with (exp a + (exp b + (exp c + 0))) by ring.
    apply perm_skip. apply perm_swap. }
  split; [| split; [exact HP | symmetry; apply entropy_Permutation; exact HP]].
  do 2 f_equal. f_equal. rewrite !argmax_3.
  destruct (Rlt_dec a b), (Rlt_dec b c), (Rlt_dec a c), (Rlt_dec c b);
    try reflexivity; lra.
Qed.
Lemma get_predictions_swap_witness :
  exists p',
    get_predictions examples.features [(1, 0, 2)%Z]
    = Ok ([choice_of examples.features examples.triplet], [p'])
    /\ entropy p' = entropy (probas_of examples.features examples.triplet).
Proof.
  destruct (get_predictions_swap examples.features 0 1 2
              (choice_of examples.features examples.triplet)
              (probas_of examples.features examples.triplet)
              (get_predictions_eq examples.features [examples.triplet]))
    as (p' & Hrun & _ & Hent).
  exists p'. split; [exact Hrun | exact Hent].
Defined.

End CosineBounds.

Section ScorerComposition.
Import main_eval scorer.
Local Open Scope R_scope.

(** X6. Scoring a concatenation of two triplet lists is scoring each list
    and concatenating the choices and the confidences; a failure of either
    part is the failure of the whole, the first part's first. *)
Theorem get_predictions_app (features : Array) (ts1 ts2 : list (Z * Z * Z)) :
  get_predictions features (ts1 ++ ts2)
  = r1 ← get_predictions features ts1;
    r2 ← get_predictions features ts2;
    Ok (fst r1 ++ fst r2, snd r1 ++ snd r2).
Proof.
  rewrite !get_predictions_eq, forallb_app, !map_app.
  destruct (forallb (all3 (in_range features)) ts1); [| reflexivity].
  destruct (forallb (all3 (in_range features)) ts2); reflexivity.
Qed.

Lemma item_wrap (features : Array) (i : Z) :
  in_bounds features i = true ->
  in_range features (i - Z.of_nat (length features)) = true
  /\ item features (i - Z.of_nat (length features)) = item features i.
Proof.
  unfold in_bounds, in_range, item. intros H.
  apply andb_true_iff in H as [H1 H2]. apply Z.leb_le in H1. apply Z.ltb_lt in H2.
  split.
  - apply andb_true_iff. split; [apply Z.leb_le | apply Z.ltb_lt]; lia.
  - destruct (Z.ltb_spec (i - Z.of_nat (length features)) 0); [| lia].
    destruct (Z.ltb_spec i 0); [lia |]. f_equal. f_equal. lia.
Qed.

(** X7. Python's negative indices address the rows from the end: for
    triplets of indices in [0, N), replacing every index [i] by [i - N]
    leaves the result of the scorer unchanged. *)
Theorem get_predictions_negative_indices (features : Array) (triplets : list (Z * Z * Z)) :
  forallb (all3 (in_bounds features)) triplets = true ->
  let n := Z.of_nat (length features) in
  get_predictions features
    (map (fun t => (fst (fst t) - n, snd (fst t) - n, snd t - n)%Z) triplets)
  = get_predictions features triplets.
Proof.
  intros Hb n. subst n. rewrite !get_predictions_eq.
  rewrite (forallb_in_bounds_in_range _ _ Hb).
  rewrite forallb_forall in Hb.
  assert (Hr : forallb (all3 (in_range features))
                 (map (fun t => (fst (fst t) - Z.of_nat (length features),
                  snd (fst t) - Z.of_nat (length features),
                  snd t - Z.of_nat (length features))%Z) triplets)
               = true).
  { apply forallb_forall. intros t' Ht'. apply in_map_iff in Ht' as (t & <- & Ht).
    specialize (Hb t Ht). unfold all3 in *. cbn [fst snd].
    apply andb_true_iff in Hb as [Hb H3]. apply andb_true_iff in Hb as [H1 H2].
    rewrite (proj1 (item_wrap _ _ H1)), (proj1 (item_wrap _ _ H2)),
      (proj1 (item_wrap _ _ H3)). reflexivity. }
  rewrite Hr. rewrite !map_map.
  assert (Hs : forall t, In t triplets ->
             similarities_of features (fst (fst t) - Z.of_nat (length features),
                  snd (fst t) - Z.of_nat (length features),
                  snd t - Z.of_nat (length features))%Z
             = similarities_of features t).
  { intros t Ht. specialize (Hb t Ht). unfold all3 in Hb.
    apply andb_true_iff in Hb as [Hb H3]. apply andb_true_iff in Hb as [H1 H2].
    unfold similarities_of, stacked. cbn [fst snd].
    rewrite (proj2 (item_wrap _ _ H1)), (proj2 (item_wrap _ _ H2)),
      (proj2 (item_wrap _ _ H3)). reflexivity. }
  f_equal. f_equal; apply map_ext_in; intros t Ht;
    unfold choice_of, probas_of; rewrite (Hs t Ht); reflexivity.
Qed.

Lemma get_predictions_negative_indices_witness :
  forallb (all3 (in_bounds examples.features)) [examples.triplet] = true
  /\ get_predictions examples.features [(-3, -2, -1)%Z]
     = get_predictions examples.features [examples.triplet].
Proof.
  split; [reflexivity |].
  exact (get_predictions_negative_indices examples.features [examples.triplet] eq_refl).
Defined.

Lemma mean_bounds (a b : R) (l : list R) :
  l <> [] -> Forall (fun h => a < h <= b) l -> a < mean l <= b.
Proof.
  intros Hne H. unfold mean.
  assert (Hn : 0 < INR (length l)).
  { destruct l; [congruence |]. apply lt_0_INR. simpl. lia. }
  assert (Hs : INR (length l) * a <= rsum l <= INR (length l) * b
               /\ (l <> [] -> INR (length l) * a < rsum l)).
  { clear Hne Hn. induction H as [|h l Hh _ IH].
    - simpl. split; [lra | congruence].
    - change (length (h :: l)) with (S (length l)). rewrite S_INR. simpl.
      destruct IH as [[IH1 IH2] _]. split; [split; nra | intros _; nra]. }
  destruct Hs as [[_ Hhi] Hlo]. specialize (Hlo Hne).
  split.
  - apply Rmult_lt_reg_r with (r := INR (length l)); [exact Hn |].
    replace (rsum l / INR (length l) * INR (length l)) with (rsum l) by (field; lra). lra.
  - apply Rmult_le_reg_r with (r := INR (length l)); [exact Hn |].
    replace (rsum l / INR (length l) * INR (length l)) with (rsum l) by (field; lra). lra.
Qed.
End ScorerComposition.

Section AccuracyRange.
Import main_eval scorer.
Local Open Scope Q_scope.

Lemma sum_le_length (choices : list bool) : (sum choices <= length choices)%nat.
Proof. induction choices as [|[|] l IH]; simpl; lia. Qed.

Lemma round_range (q : Q) : 0 <= q <= 1 -> 0 <= round q 4 <= 1.
Proof.
  intros [H0 H1]. unfold round.
  change (Z.to_pos (10 ^ Z.of_nat 4)) with 10000%positive.
  set (z := round_half_even (q * inject_Z 10000)).
  rewrite Qred_correct.
  pose proof (round_half_even_close (q * inject_Z 10000)) as H. fold z in H.
  apply Qabs_Qle_condition in H. destruct H as [Hlo Hhi].
  change (inject_Z 10000) with (10000 # 1) in *.
  assert (Hz0 : (0 <= z)%Z).
  { destruct (Z_lt_le_dec z 0) as [Hneg | ]; [| assumption]. exfalso.
    assert (Hq : inject_Z z <= inject_Z (-1)) by (rewrite <- Zle_Qle; lia).
    change (inject_Z (-1)) with (-1 # 1) in Hq.
    revert Hlo Hq. generalize (inject_Z z). intros y Hlo Hq. lra. }
  assert (Hz1 : (z <= 10000)%Z).
  { destruct (Z_lt_le_dec 10000 z) as [Hbig | ]; [| assumption]. exfalso.
    assert (Hq : inject_Z 10001 <= inject_Z z) by (rewrite <- Zle_Qle; lia).
    change (inject_Z 10001) with (10001 # 1) in Hq.
    revert Hhi Hq. generalize (inject_Z z). intros y Hhi Hq. lra. }
  unfold Qle. simpl. split; lia.
Qed.

Lemma accuracy_ok_range (choices : list bool) (acc : Q) :
  accuracy choices = Ok acc -> 0 <= acc <= 1.
Proof.
  unfold accuracy. destruct (length choices) as [|m] eqn:E; [discriminate |].
  rewrite <- E. intros H. injection H as <-.
  apply round_range. pose proof (sum_le_length choices) as Hs.
  unfold Qle. simpl. split; lia.
Qed.

(** X8. [accuracy] fails only on the empty list, with the
    [ZeroDivisionError] of the division by its length; every value it
    returns lies between 0 and 1. *)
Theorem accuracy_range (choices : list bool) :
  match accuracy choices with
  | Ok acc => choices <> [] /\ 0 <= acc <= 1
  | Raise e => e = Py.ZeroDivisionError /\ choices = []
  end.
Proof.
  destruct (accuracy choices) as [acc | e] eqn:Hacc.
  - split; [intros ->; discriminate Hacc | exact (accuracy_ok_range _ _ Hacc)].
  - unfold accuracy in Hacc. destruct choices as [|b choices]; [| discriminate Hacc].
    injection Hacc as <-. split; reflexivity.
Qed.

Lemma sum_Permutation (c c' : list bool) : Permutation c c' -> sum c = sum c'.
Proof.
  induction 1 as [| x l l' _ IH | x y l | l l' l'' _ IH1 _ IH2]; simpl; lia.
Qed.

(** X9. The accuracy does not depend on the order of the choices. *)
Theorem accuracy_Permutation (c c' : list bool) :
  Permutation c c' -> accuracy c = accuracy c'.
Proof.
  intros H. unfold accuracy.
  rewrite (Permutation_length H), (sum_Permutation _ _ H). reflexivity.
Qed.
Lemma accuracy_Permutation_witness :
  Permutation [true; false] [false; true]
  /\ accuracy [true; false] = accuracy [false; true].
Proof.
  assert (H : Permutation [true; false] [false; true]) by apply perm_swap.
  split; [exact H |].
  exact (accuracy_Permutation [true; false] [false; true] H).
Defined.

End AccuracyRange.

Section EvaluateOutcome.
Import main_eval scorer.
Local Open Scope R_scope.

(** X10. The scoring of one model fails in exactly two ways: with an
    [IndexError] when some index of some triplet is outside [-N, N), and
    with a [ZeroDivisionError] when there is no triplet.  Otherwise the
    summary holds an accuracy between 0 and 1, one confidence vector and
    one entropy in (0, log 3] per triplet, and a mean entropy in
    (0, log 3]. *)
Theorem evaluate_outcome (features : Array) (triplets : list (Z * Z * Z)) :
  match evaluate features triplets with
  | Raise e =>
      (e = Py.IndexError /\ forallb (all3 (in_range features)) triplets = false)
      \/ (e = Py.ZeroDivisionError /\ triplets = [])
  | Ok s =>
      triplets <> []
      /\ forallb (all3 (in_range features)) triplets = true
      /\ (0 <= summary_accuracy s <= 1)%Q
      /\ length (summary_probas s) = length triplets
      /\ summary_entropies s = ventropy (summary_probas s)
      /\ length (summary_entropies s) = length triplets
      /\ Forall (fun h => 0 < h <= ln 3) (summary_entropies s)
      /\ 0 < summary_mean_entropy s <= ln 3
  end.
Proof.
  unfold evaluate.
  destruct (get_predictions features triplets) as [[choices probas] | e] eqn:Hrun.
  - rewrite get_predictions_eq in Hrun.
    destruct (forallb (all3 (in_range features)) triplets) eqn:Hall; [| discriminate].
    assert (Hlc : length choices = length triplets)
      by (injection Hrun as <- _; apply length_map).
    assert (Hlp : length probas = length triplets)
      by (injection Hrun as _ <-; apply length_map).
    assert (Hent : Forall (fun h => 0 < h <= ln 3) (ventropy probas))
      by (injection Hrun as _ <-; apply ventropy_probas_of_range).
    cbn [mbind result_bind Py.bind fst snd].
    destruct (accuracy choices) as [acc | e] eqn:Hacc.
    + cbn [Py.bind].
      unfold summary_accuracy, summary_probas, summary_entropies, summary_mean_entropy.
      cbv beta iota zeta.
      assert (Hne : triplets <> []).
      { intros ->. injection Hrun as <- <-. discriminate Hacc. }
      split; [exact Hne |]. split; [reflexivity |].
      split; [apply (accuracy_ok_range choices); exact Hacc |].
      split; [exact Hlp |]. split; [reflexivity |].
      split; [unfold ventropy; rewrite length_map; exact Hlp |].
      split; [exact Hent |].
      apply mean_bounds; [| exact Hent].
      unfold ventropy. destruct probas; [| discriminate].
      destruct triplets; [congruence | discriminate Hlp].
    + cbn [Py.bind]. right.
      unfold accuracy in Hacc. destruct (length choices) eqn:El; [| discriminate].
      injection Hacc as <-. split; [reflexivity |].
      destruct triplets; [reflexivity | discriminate Hlc].
  - cbn [mbind result_bind Py.bind]. left.
    rewrite get_predictions_eq in Hrun.
    destruct (forallb (all3 (in_range features)) triplets); [discriminate |].
    injection Hrun as <-. split; reflexivity.
Qed.
End EvaluateOutcome.
(* ===================================================================== *)
(** * Further properties of main_model_sim_eval.py                        *)
(* ===================================================================== *)

Section NamingFacts.
Import main_model_sim_eval naming.

Lemma string_append_cons (c : ascii) (s t : string) :
  (String c s ++ t)%string = String c (s ++ t)%string.
Proof. reflexivity. Qed.

Lemma string_append_nil_r (s : string) : (s ++ "")%string = s.
Proof.
  induction s as [|c s IH]; [reflexivity |].
  rewrite string_append_cons, IH. reflexivity.
Qed.

Lemma string_append_assoc (a b c : string) :
  ((a ++ b) ++ c)%string = (a ++ (b ++ c))%string.
Proof.
  induction a as [|x a IH]; [reflexivity |].
  rewrite !string_append_cons, IH. reflexivity.
Qed.

Lemma count_char_append (sep : ascii) (a b : string) :
  count_char sep (a ++ b) = (count_char sep a + count_char sep b)%nat.
Proof.
  induction a as [|x a IH]; [reflexivity |].
  rewrite string_append_cons. simpl. rewrite IH. lia.
Qed.

Lemma split_from_length (sep : ascii) (s : string) :
  forall cur, length (split_from sep s cur) = S (count_char sep s).
Proof.
  induction s as [|c s IH]; intros cur; simpl; [reflexivity |].
  destruct (Ascii.eqb c sep); simpl; rewrite IH; reflexivity.
Qed.

Lemma split_from_nonempty (sep : ascii) (s cur : string) : split_from sep s cur <> [].
Proof.
  intros H. pose proof (split_from_length sep s cur) as Hl. rewrite H in Hl. discriminate.
Qed.

Lemma join_cons (sep : ascii) (x : string) (rest : list string) :
  rest <> [] -> join sep (x :: rest) = (x ++ String sep (join sep rest))%string.
Proof. destruct rest; [congruence | reflexivity]. Qed.

Lemma join_split_from (sep : ascii) (s : string) :
  forall cur, join sep (split_from sep s cur) = (cur ++ s)%string.
Proof.
  induction s as [|c s IH]; intros cur; simpl.
  - symmetry. apply string_append_nil_r.
  - destruct (Ascii.eqb_spec c sep) as [-> | Hne].
    + rewrite join_cons by apply split_from_nonempty. rewrite IH. reflexivity.
    + rewrite IH, string_append_assoc. reflexivity.
Qed.

Lemma split_from_pieces (sep : ascii) (s : string) :
  forall cur, count_char sep cur = 0%nat ->
    Forall (fun piece => count_char sep piece = 0%nat) (split_from sep s cur).
Proof.
  induction s as [|c s IH]; intros cur Hcur; simpl.
  - constructor; [exact Hcur | constructor].
  - destruct (Ascii.eqb c sep) eqn:E.
    + constructor; [exact Hcur | apply IH; reflexivity].
    + apply IH. rewrite count_char_append. simpl. rewrite E, Hcur. reflexivity.
Qed.

(** [split] is inverted by [join], yields one piece more than there are
    separators, and no piece contains the separator. *)
Lemma split_spec (sep : ascii) (s : string) :
  join sep (split sep s) = s
  /\ length (split sep s) = S (count_char sep s)
  /\ Forall (fun piece => count_char sep piece = 0%nat) (split sep s).
Proof.
  unfold split. split; [apply join_split_from |].
  split; [apply split_from_length | apply split_from_pieces; reflexivity].
Qed.

(** X11. The name parsing of the loop: a model name that starts with
    neither ["OpenCLIP"] nor ["clip"] is passed on as it is, without
    parameters.  An ["OpenCLIP"] name must hold exactly two underscores and
    a ["clip"] name exactly one, otherwise the unpacking fails with a
    [ValueError]; the parts between the underscores become the extractor
    name and the parameters [variant] (and [dataset]), none of them holds an
    underscore, and joined by underscores they give the model name back. *)
Theorem model_parameters_spec (model_name : string) :
  let n := count_char underscore model_name in
  match model_parameters model_name with
  | Ok (name, None) =>
      name = model_name
      /\ startswith model_name "OpenCLIP" = false /\ startswith model_name "clip" = false
  | Ok (name, Some params) =>
      exists parts,
        join underscore (name :: parts) = model_name
        /\ Forall (fun piece => count_char underscore piece = 0%nat) (name :: parts)
        /\ ((startswith model_name "OpenCLIP" = true /\ n = 2%nat
             /\ params = combine ["variant"; "dataset"]%string parts /\ length parts = 2%nat)
            \/ (startswith model_name "OpenCLIP" = false
                /\ startswith model_name "clip" = true /\ n = 1%nat
                /\ params = combine ["variant"]%string parts /\ length parts = 1%nat))
  | Raise e =>
      e = Py.ValueError
      /\ ((startswith model_name "OpenCLIP" = true /\ n <> 2%nat)
          \/ (startswith model_name "OpenCLIP" = false
              /\ startswith model_name "clip" = true /\ n <> 1%nat))
  end.
Proof.
  intros n. unfold model_parameters.
  destruct (split_spec underscore model_name) as (Hjoin & Hlen & Hpieces).
  fold n in Hlen.
  destruct (startswith model_name "OpenCLIP") eqn:Ho.
  - destruct (split underscore model_name) as [|name [|variant [|data [|x l]]]];
      simpl in Hlen; try (split; [reflexivity | left; split; [reflexivity | lia]]).
    exists [variant; data]. split; [exact Hjoin |]. split; [exact Hpieces |].
    left. repeat split; try reflexivity. lia.
  - destruct (startswith model_name "clip") eqn:Hc.
    + destruct (split underscore model_name) as [|name [|variant [|x l]]];
        simpl in Hlen;
        try (split; [reflexivity | right; repeat split; try reflexivity; lia]).
      exists [variant]. split; [exact Hjoin |]. split; [exact Hpieces |].
      right. repeat split; try reflexivity. lia.
    + repeat split; reflexivity.
Qed.
End NamingFacts.

Section ConfigFacts.
Import main_model_sim_eval.

Lemma get_module_names_loop_spec (model_config : gmap string (gmap string (gmap string string)))
    (module : string) (models : list string) :
  forall acc,
    match get_module_names_loop model_config models module acc with
    | Ok names =>
        exists found,
          names = acc ++ found
          /\ Forall2 (fun model name =>
                        dict_get3 model_config model module "module_name" = Ok name)
                     models found
    | Raise e =>
        e = Exception
        /\ Exists (fun model =>
                     dict_get3 model_config model module "module_name" = Raise Py.KeyError)
                  models
    end.
Proof.
  induction models as [|model rest IH]; intros acc; simpl.
  - exists []. split; [rewrite app_nil_r; reflexivity | constructor].
  - destruct (dict_get3_cases model_config model module "module_name") as [[name Hn] | Hn];
      rewrite Hn; simpl.
    + specialize (IH (acc ++ [name])).
      destruct (get_module_names_loop model_config rest module (acc ++ [name])) as [names | e].
      * destruct IH as (found & -> & HF). exists (name :: found).
        split; [rewrite <- app_assoc; reflexivity | constructor; assumption].
      * destruct IH as [-> HE]. split; [reflexivity | apply Exists_cons_tl; exact HE].
    + split; [reflexivity | apply Exists_cons_hd; exact Hn].
Qed.

(** X12. [get_module_names] returns, in order, the module name that the
    configuration holds for each model, one per model; when the
    configuration lacks the entry of some model it fails with the
    [Exception] raised in the handler, never with the [KeyError] itself. *)
Theorem get_module_names_spec (model_config : gmap string (gmap string (gmap string string)))
    (models : list string) (module : string) :
  match get_module_names model_config models module with
  | Ok names =>
      length names = length models
      /\ Forall2 (fun model name =>
                    dict_get3 model_config model module "module_name" = Ok name)
                 models names
  | Raise e =>
      e = Exception
      /\ Exists (fun model =>
                   dict_get3 model_config model module "module_name" = Raise Py.KeyError)
                models
  end.
Proof.
  unfold get_module_names.
  pose proof (get_module_names_loop_spec model_config module models []) as H.
  destruct (get_module_names_loop model_config models module []) as [names | e];
    [| exact H].
  destruct H as (found & -> & HF). simpl. split; [| exact HF].
  symmetry. eapply Forall2_length. exact HF.
Qed.

Lemma enumerate_zip_lookup (names sources : list string) (i : nat) (m s : string) :
  In (i, (m, s)) (enumerate_zip names sources) ->
  names !! i = Some m /\ sources !! i = Some s.
Proof.
  unfold enumerate_zip. set (z := combine names sources).
  assert (H : forall (l : list (string * string)) start x,
             In (i, x) (combine (seq start (length l)) l) ->
             (start <= i)%nat /\ l !! (i - start)%nat = Some x).
  { induction l as [|y l IH]; intros start x Hin; simpl in Hin; [contradiction |].
    destruct Hin as [E | Hin].
    - injection E as <- <-. split; [lia |]. rewrite Nat.sub_diag. reflexivity.
    - destruct (IH _ _ Hin) as [Hle Hl]. split; [lia |].
      replace (i - start)%nat with (S (i - S start)) by lia. exact Hl. }
  intros Hin. destruct (H z 0%nat (m, s) Hin) as [_ Hz].
  rewrite Nat.sub_0_r in Hz. unfold z in Hz. clear H Hin z.
  revert sources i Hz. induction names as [|n names IH]; intros [|s' sources] i Hz;
    simpl in Hz; try discriminate.
  destruct i as [|i]; simpl in *.
  - injection Hz as <- <-. split; reflexivity.
  - apply IH. exact Hz.
Qed.

Lemma enumerate_zip_length (names sources : list string) :
  length (enumerate_zip names sources) = Nat.min (length names) (length sources).
Proof.
  unfold enumerate_zip. rewrite length_combine, length_seq, Nat.min_id.
  apply length_combine.
Qed.

(** X13. A configuration built by [create_config_dicts] holds one module
    name per model name, so for every model that the loop of [evaluate]
    reaches the look-up [modules[i]] succeeds and yields the module name
    that the configuration file holds for that model. *)
Theorem create_config_dicts_modules
    (model_config : gmap string (gmap string (gmap string string)))
    (model_names sources : list string) (module : string) (cfg : ModelCfg) :
  create_config_dicts model_config model_names sources module = Ok cfg ->
  names cfg = model_names /\ main_model_sim_eval.sources cfg = sources
  /\ length (modules cfg) = length model_names
  /\ forall i model source,
       In (i, (model, source)) (enumerate_zip (names cfg) (main_model_sim_eval.sources cfg)) ->
       exists module_name,
         list_get (modules cfg) i = Ok module_name
         /\ dict_get3 model_config model module "module_name" = Ok module_name.
Proof.
  unfold create_config_dicts.
  unfold get_module_names.
  pose proof (get_module_names_loop_spec model_config module model_names []) as H.
  destruct (get_module_names_loop model_config model_names module []) as [module_names | e];
    [| discriminate].
  destruct H as (found & -> & HF).
  assert (Hlen : length found = length model_names)
    by (symmetry; eapply Forall2_length; exact HF).
  intros E. injection E as <-. simpl.
  split; [reflexivity |]. split; [reflexivity |]. split; [exact Hlen |].
  intros i model source Hin.
  apply enumerate_zip_lookup in Hin as [Hn _].
  destruct (Forall2_lookup_l _ _ _ _ _ HF Hn) as (module_name & Hm & Hget).
  exists module_name. split; [| exact Hget].
  unfold list_get. rewrite Hm. reflexivity.
Qed.
Lemma create_config_dicts_modules_witness :
  exists cfg,
    create_config_dicts accounting.model_config ["resnet18"]%string ["torchvision"]%string
      "penultimate" = Ok cfg
    /\ length (modules cfg) = 1%nat.
Proof.
  assert (H : create_config_dicts accounting.model_config ["resnet18"]%string
                ["torchvision"]%string "penultimate"
              = Ok {| names := ["resnet18"]%string; modules := ["avgpool"]%string;
                      sources := ["torchvision"]%string |}) by reflexivity.
  eexists. split; [exact H |].
  destruct (create_config_dicts_modules _ _ _ _ _ H) as (_ & _ & Hlen & _).
  exact Hlen.
Defined.

End ConfigFacts.

Section DictFacts.
Import main_model_sim_eval.

Lemma dict_get3_dict_set3 {V : Type} (d : gmap string (gmap string (gmap string V)))
    (a b c a' b' c' : string) (v : V) :
  dict_get3 (dict_set3 d a b c v) a' b' c'
  = if bool_decide (a' = a /\ b' = b /\ c' = c) then Ok v else dict_get3 d a' b' c'.
Proof.
  unfold dict_get3, dict_set3, dict_get.
  destruct (decide (a' = a)) as [-> | Ha].
  - rewrite lookup_insert_eq. simpl.
    destruct (decide (b' = b)) as [-> | Hb].
    + rewrite lookup_insert_eq. simpl.
      destruct (decide (c' = c)) as [-> | Hc].
      * rewrite lookup_insert_eq. rewrite bool_decide_eq_true_2 by auto. reflexivity.
      * rewrite lookup_insert_ne by auto.
        rewrite bool_decide_eq_false_2 by (intros (_ & _ & ?); auto).
        destruct (d !! a) as [da|]; simpl; [| rewrite lookup_empty; reflexivity].
        destruct (da !! b) as [db|]; simpl; [reflexivity | rewrite lookup_empty; reflexivity].
    + rewrite lookup_insert_ne by auto.
      rewrite bool_decide_eq_false_2 by (intros (_ & ? & _); auto).
      destruct (d !! a) as [da|]; simpl; [reflexivity | rewrite lookup_empty; reflexivity].
  - rewrite lookup_insert_ne by auto.
    rewrite bool_decide_eq_false_2 by (intros (? & _ & _); auto). reflexivity.
Qed.

(** X14. The assignment [d[a][b][c] = v] on the nested dictionary of stored
    features is read back by [d[a][b][c]], and it changes the look-up of no
    other triple of keys. *)
Theorem dict_set3_get3 {V : Type} (d : gmap string (gmap string (gmap string V)))
    (a b c : string) (v : V) :
  dict_get3 (dict_set3 d a b c v) a b c = Ok v
  /\ forall a' b' c',
       (a', b', c') <> (a, b, c) ->
       dict_get3 (dict_set3 d a b c v) a' b' c' = dict_get3 d a' b' c'.
Proof.
  split.
  - rewrite dict_get3_dict_set3. rewrite bool_decide_eq_true_2 by auto. reflexivity.
  - intros a' b' c' Hne. rewrite dict_get3_dict_set3.
    rewrite bool_decide_eq_false_2; [reflexivity |].
    intros (-> & -> & ->). apply Hne. reflexivity.
Qed.

Lemma dict_set3_get3_witness :
  ("torchvision", "vgg16", "penultimate")%string
  <> ("torchvision", "resnet18", "penultimate")%string
  /\ dict_get3 (dict_set3 (V := nat) ∅ "torchvision" "resnet18" "penultimate" 7)
       "torchvision" "vgg16" "penultimate"
     = dict_get3 (V := nat) ∅ "torchvision" "vgg16" "penultimate".
Proof.
  assert (H : ("torchvision", "vgg16", "penultimate")%string
              <> ("torchvision", "resnet18", "penultimate")%string) by discriminate.
  split; [exact H |].
  exact (proj2 (dict_set3_get3 (V := nat) ∅ "torchvision" "resnet18" "penultimate" 7)
           _ _ _ H).
Defined.

End DictFacts.

Section LoopFacts.
Import main_model_sim_eval accounting.

Context {Features Dataset Stat : Type}.
Variable get_family_name : string -> Py.result string.
Variable extract_features :
  string -> string -> option (list (string * string)) -> string -> string ->
  Py.result (Dataset * Features).
Variable apply_transform : Features -> Features -> Features -> string -> Py.result Features.
Variable perform_rsa : Dataset -> string -> Features -> Py.result (gmap string Stat).
Variable args : Args.
Variable model_cfg : ModelCfg.

Local Abbreviation step_with things transforms :=
  (step get_family_name extract_features apply_transform perform_rsa args model_cfg
     things transforms).
Local Abbreviation loop_with things transforms :=
  (loop get_family_name extract_features apply_transform perform_rsa args model_cfg
     things transforms).

Lemma transform_features_outcome things transforms (model_name source : string)
    (features : Features) (o : outcome) :
  transform_features apply_transform args things transforms model_name source features = Ok o ->
  match o with
  | Continue message =>
      use_transforms args = true
      /\ ((message = missing_transform model_name
           /\ dict_get3 transforms source model_name (module args) = Raise Py.KeyError)
          \/ (message = missing_embedding model_name
              /\ dict_get3 things source model_name (module args) = Raise Py.KeyError))
  | Evaluate features' =>
      (use_transforms args = false /\ features' = features)
      \/ (use_transforms args = true
          /\ exists t th,
               dict_get3 transforms source model_name (module args) = Ok t
               /\ dict_get3 things source model_name (module args) = Ok th
               /\ apply_transform features th t (transform_type args) = Ok features')
  end.
Proof.
  unfold transform_features. destruct (use_transforms args).
  - destruct (dict_get3_cases transforms source model_name (module args)) as [[t Ht] | Ht];
      rewrite Ht; simpl.
    + destruct (dict_get3_cases things source model_name (module args)) as [[th Hth] | Hth];
        rewrite Hth; simpl.
      * destruct (apply_transform features th t (transform_type args)) as [f' | e] eqn:Ha;
          simpl; [| discriminate].
        intros E. injection E as <-. right. split; [reflexivity |]. eauto.
      * intros E. injection E as <-. split; [reflexivity |]. right. auto.
    + intros E. injection E as <-. split; [reflexivity |]. left. auto.
  - intros E. injection E as <-. left. auto.
Qed.

Lemma step_cases things transforms (st st' : state) (i : nat)
    (model_name source : string) :
  step_with things transforms st i model_name source = Ok st' ->
  (exists message,
     use_transforms args = true
     /\ (message = missing_transform model_name \/ message = missing_embedding model_name)
     /\ results st' = results st
     /\ model_features st' = model_features st
     /\ warnings st' = warnings st ++ [message])
  \/ (exists r features,
        results st' = results st ++ [r]
        /\ warnings st' = warnings st
        /\ summary_model r = model_name
        /\ summary_source r = source
        /\ summary_dataset r = dataset args
        /\ summary_transform r = use_transforms args
        /\ summary_transform_type r
           = (if use_transforms args then Some (transform_type args) else None)
        /\ model_features st'
           = dict_set3 (model_features st) source model_name (module args) features
        /\ dict_get3 (model_features st') source model_name (module args) = Ok features).
Proof.
  unfold step.
  destruct (model_parameters model_name) as [np | e]; simpl; [| discriminate].
  destruct (get_family_name model_name) as [family | e]; simpl; [| discriminate].
  destruct (list_get (modules model_cfg) i) as [module_name | e]; simpl; [| discriminate].
  destruct (extract_features np.1 source np.2 model_name module_name) as [df | e];
    simpl; [| discriminate].
  destruct (transform_features apply_transform args things transforms model_name source df.2)
    as [o | e] eqn:Ho; simpl; [| discriminate].
  apply transform_features_outcome in Ho.
  destruct o as [message | features].
  - destruct Ho as [Huse Hmsg]. intros E. injection E as <-. left.
    exists message. simpl. split; [exact Huse |]. split; [tauto | auto].
  - destruct (perform_rsa df.1 (dataset args) features) as [stats | e]; simpl; [| discriminate].
    destruct (dict_get stats "spearman_rho_cosine_kernel") as [s1 | e]; simpl; [| discriminate].
    destruct (dict_get stats "spearman_rho_corr_kernel") as [s2 | e]; simpl; [| discriminate].
    destruct (dict_get stats "pearson_corr_coef_cosine_kernel") as [s3 | e]; simpl;
      [| discriminate].
    destruct (dict_get stats "pearson_corr_coef_corr_kernel") as [s4 | e]; simpl;
      [| discriminate].
    intros E. injection E as <-. right. eexists _, features. simpl.
    repeat split. rewrite dict_get3_dict_set3. rewrite bool_decide_eq_true_2 by auto. reflexivity.
Qed.

Lemma stored_dict_set3 mf (a b : string) (v : Features) (r : @summary Stat) :
  stored args mf r -> stored args (dict_set3 mf a b (module args) v) r.
Proof.
  intros (H1 & H2 & H3 & f & Hf). repeat split; try assumption.
  rewrite dict_get3_dict_set3. case_bool_decide; eauto.
Qed.

Lemma loop_cases things transforms (models : list (nat * (string * string))) :
  forall st st',
    loop_with things transforms models st = Ok st' ->
    Forall (stored args (model_features st)) (results st) ->
    (exists rs ws,
       results st' = results st ++ rs
       /\ warnings st' = warnings st ++ ws
       /\ (length rs + length ws = length models)%nat
       /\ sublist (map summary_model rs) (map (fun x => fst (snd x)) models)
       /\ (use_transforms args = false -> ws = []))
    /\ Forall (stored args (model_features st')) (results st').
Proof.
  induction models as [|[i [model_name source]] rest IH]; intros st st'; simpl.
  - intros E Hinv. injection E as <-. split; [| exact Hinv].
    exists [], []. rewrite !app_nil_r. repeat split; try reflexivity.
  - destruct (step_with things transforms st i model_name source) as [st1 | e] eqn:Hstep;
      simpl; [| discriminate].
    intros Hloop Hinv.
    destruct (step_cases _ _ _ _ _ _ _ Hstep)
      as [(message & Huse & _ & Hr1 & Hf1 & Hw1)
         | (r & features & Hr1 & Hw1 & Hm & Hs & Hd & Ht & Htt & Hf1 & Hget)].
    + assert (Hinv1 : Forall (stored args (model_features st1)) (results st1))
        by (rewrite Hr1, Hf1; exact Hinv).
      destruct (IH _ _ Hloop Hinv1) as [(rs & ws & Hr & Hw & Hlen & Hsub & Hnone) Hinv'].
      split; [| exact Hinv'].
      exists rs, (message :: ws). rewrite Hr, Hw, Hr1, Hw1, <- app_assoc. simpl.
      repeat split; try reflexivity; [lia | apply sublist_cons; exact Hsub | congruence].
    + assert (Hinv1 : Forall (stored args (model_features st1)) (results st1)).
      { rewrite Hr1. apply Forall_app. split.
        - rewrite Hf1. eapply List.Forall_impl; [| exact Hinv].
          intros r0. apply stored_dict_set3.
        - constructor; [| constructor]. repeat split; try assumption.
          exists features. rewrite Hm, Hs. exact Hget. }
      destruct (IH _ _ Hloop Hinv1) as [(rs & ws & Hr & Hw & Hlen & Hsub & Hnone) Hinv'].
      split; [| exact Hinv'].
      exists (r :: rs), ws. rewrite Hr, Hw, Hr1, Hw1, <- app_assoc. simpl.
      repeat split; try reflexivity;
        [lia | rewrite Hm; apply sublist_skip; exact Hsub | exact Hnone].
Qed.

Lemma enumerate_zip_models (l1 l2 : list string) :
  sublist (map (fun x : nat * (string * string) => fst (snd x)) (enumerate_zip l1 l2)) l1.
Proof.
  unfold enumerate_zip.
  assert (Hsnd : forall (z : list (string * string)) start,
             map snd (combine (seq start (length z)) z) = z).
  { induction z as [|x z IH]; intros start; simpl; [reflexivity |]. rewrite IH. reflexivity. }
  rewrite <- (map_map snd fst), Hsnd.
  revert l2. induction l1 as [|a l1 IH]; intros [|b l2]; simpl.
  - constructor.
  - constructor.
  - apply sublist_nil_l.
  - apply sublist_skip. apply IH.
Qed.

(** X15. After a run of [evaluate] that ends normally, every model of
    [zip(names, sources)] is accounted for by exactly one result record or
    one warning; the records list their models in the order of the model
    names; without [--use_transforms] there is no warning; and every record
    carries the dataset and the transform settings of the run and has the
    features of its model stored under [source], [model], [module]. *)
Theorem evaluate_accounting things transforms (st' : state) :
  evaluate get_family_name extract_features apply_transform perform_rsa args model_cfg
    things transforms = Ok st' ->
  (length (results st') + length (warnings st')
   = Nat.min (length (names model_cfg)) (length (sources model_cfg)))%nat
  /\ sublist (map summary_model (results st')) (names model_cfg)
  /\ (use_transforms args = false -> warnings st' = [])
  /\ Forall (stored args (model_features st')) (results st').
Proof.
  unfold evaluate. intros Hloop.
  destruct (loop_cases _ _ _ _ _ Hloop) as [(rs & ws & Hr & Hw & Hlen & Hsub & Hnone) Hinv];
    [constructor |].
  simpl in Hr, Hw. subst rs ws.
  rewrite enumerate_zip_length in Hlen.
  split; [exact Hlen |]. split; [| split; [exact Hnone | exact Hinv]].
  etransitivity; [exact Hsub | apply enumerate_zip_models].
Qed.

(** X16. Without [--use_transforms] the transformation matrices and the
    THINGS embeddings are never consulted: the loop gives the same result
    whatever they are. *)
Theorem loop_ignores_transforms things1 transforms1 things2 transforms2
    (models : list (nat * (string * string))) (st : state) :
  use_transforms args = false ->
  loop_with things1 transforms1 models st = loop_with things2 transforms2 models st.
Proof.
  intros Huse. revert st.
  induction models as [|[i [model_name source]] rest IH]; intros st; simpl; [reflexivity |].
  assert (Hstep : step_with things1 transforms1 st i model_name source
                  = step_with things2 transforms2 st i model_name source).
  { unfold step, transform_features. rewrite Huse. reflexivity. }
  rewrite Hstep.
  destruct (step_with things2 transforms2 st i model_name source); simpl;
    [apply IH | reflexivity].
Qed.

(** X17. Only the two look-ups of the transform path are guarded: when
    the statistics returned by [perform_rsa] lack one of the four keys that
    [evaluate] reads, the [KeyError] is not caught, and it ends the loop
    with the remaining models unevaluated.  This holds with and without
    [--use_transforms], whenever the model is not skipped. *)
Theorem step_missing_statistic things transforms (st : state) (i : nat)
    (model_name source : string) (rest : list (nat * (string * string)))
    (np : string * option (list (string * string))) (family_name module_name : string)
    (df : Dataset * Features) (features : Features) (stats : gmap string Stat)
    (key : string) :
  model_parameters model_name = Ok np ->
  get_family_name model_name = Ok family_name ->
  list_get (modules model_cfg) i = Ok module_name ->
  extract_features (fst np) source (snd np) model_name module_name = Ok df ->
  transform_features apply_transform args things transforms model_name source (snd df)
  = Ok (Evaluate features) ->
  perform_rsa (fst df) (dataset args) features = Ok stats ->
  key ∈ rsa_keys ->
  stats !! key = None ->
  step_with things transforms st i model_name source = Raise Py.KeyError
  /\ loop_with things transforms ((i, (model_name, source)) :: rest) st = Raise Py.KeyError.
Proof.
  intros Hnp Hfam Hmod Hext Htf Hrsa Hkey Hnone.
  assert (Hstep : step_with things transforms st i model_name source = Raise Py.KeyError).
  { unfold step. rewrite Hnp. simpl. rewrite Hfam. simpl.
    rewrite Hmod. simpl. rewrite Hext. simpl. rewrite Htf. simpl. rewrite Hrsa. simpl.
    unfold dict_get.
    unfold rsa_keys in Hkey. rewrite !elem_of_cons in Hkey. rewrite elem_of_nil in Hkey.
    destruct (stats !! "spearman_rho_cosine_kernel"%string) eqn:E1; simpl;
      [| reflexivity].
    destruct (stats !! "spearman_rho_corr_kernel"%string) eqn:E2; simpl;
      [| reflexivity].
    destruct (stats !! "pearson_corr_coef_cosine_kernel"%string) eqn:E3; simpl;
      [| reflexivity].
    destruct (stats !! "pearson_corr_coef_corr_kernel"%string) eqn:E4; simpl;
      [| reflexivity].
    destruct Hkey as [-> | [-> | [-> | [-> | []]]]]; congruence. }
  split; [exact Hstep |]. simpl. rewrite Hstep. reflexivity.
Qed.
End LoopFacts.

Lemma evaluate_accounting_witness :
  exists st',
    main_model_sim_eval.evaluate examples.loop_family examples.loop_extract
      examples.loop_transform accounting.full_rsa accounting.plain_args examples.loop_cfg
      ∅ ∅ = Ok st'
    /\ length (main_model_sim_eval.results st') = 1%nat
    /\ main_model_sim_eval.warnings st' = [].
Proof.
  destruct (main_model_sim_eval.evaluate examples.loop_family examples.loop_extract
              examples.loop_transform accounting.full_rsa accounting.plain_args
              examples.loop_cfg ∅ ∅) as [st' | e] eqn:Hrun; [| discriminate Hrun].
  exists st'. split; [reflexivity |].
  destruct (evaluate_accounting _ _ _ _ _ _ _ _ _ Hrun) as (Hlen & _ & Hnone & _).
  specialize (Hnone eq_refl). rewrite Hnone in Hlen. simpl in Hlen.
  split; [lia | exact Hnone].
Defined.

Lemma loop_ignores_transforms_witness :
  main_model_sim_eval.use_transforms accounting.plain_args = false
  /\ main_model_sim_eval.loop examples.loop_family examples.loop_extract
       examples.loop_transform accounting.full_rsa accounting.plain_args examples.loop_cfg
       ∅ ∅ [(0%nat, ("resnet18", "torchvision"))]%string main_model_sim_eval.initial
     = main_model_sim_eval.loop examples.loop_family examples.loop_extract
         examples.loop_transform accounting.full_rsa accounting.plain_args examples.loop_cfg
         {[ "torchvision"%string := ∅ ]} {[ "torchvision"%string := ∅ ]}
         [(0%nat, ("resnet18", "torchvision"))]%string main_model_sim_eval.initial.
Proof.
  split; [reflexivity |].
  exact (loop_ignores_transforms examples.loop_family examples.loop_extract
           examples.loop_transform accounting.full_rsa accounting.plain_args
           examples.loop_cfg ∅ ∅ {[ "torchvision"%string := ∅ ]}
           {[ "torchvision"%string := ∅ ]} _ _ eq_refl).
Defined.

Lemma step_missing_statistic_witness :
  main_model_sim_eval.use_transforms examples.loop_args = true
  /\ ("spearman_rho_cosine_kernel"%string ∈ accounting.rsa_keys)
  /\ main_model_sim_eval.evaluate examples.loop_family examples.loop_extract
       examples.loop_transform examples.loop_rsa examples.loop_args examples.loop_cfg
       accounting.loaded accounting.loaded = Raise Py.KeyError.
Proof.
  assert (Hkey : "spearman_rho_cosine_kernel"%string ∈ accounting.rsa_keys)
    by apply list_elem_of_here.
  split; [reflexivity |]. split; [exact Hkey |].
  exact (proj2 (step_missing_statistic examples.loop_family examples.loop_extract
                  examples.loop_transform examples.loop_rsa examples.loop_args
                  examples.loop_cfg accounting.loaded accounting.loaded
                  main_model_sim_eval.initial 0 "resnet18"
                  "torchvision" [] ("resnet18"%string, None) "ResNet" "avgpool"
                  (tt, 0%nat) 0%nat ∅ "spearman_rho_cosine_kernel"
                  eq_refl eq_refl eq_refl eq_refl eq_refl eq_refl Hkey eq_refl)).
Defined.
